(** * scripts/resize-cocktail-images.py: the batch image normaliser

    A shallow embedding of [resize_images] and of the [__main__] block.
    The script is a sequence of calls into pathlib and Pillow around one
    loop with a per-file [try]/[except]; the embedding keeps that shape:

    - Python values the script computes itself (file names, suffixes,
      stems, paths, the crop box of [ImageOps.fit], the white canvas and
      the paste) are plain functions;
    - the file system is a finite map from paths to nodes, threaded
      through a state-and-exception monad together with standard output;
    - what lives inside Pillow's C core or in the environment and cannot
      be written down here (decoding a file, mode conversion tables, the
      resampling kernel, the JPEG encoder, disk faults, which lines the
      encoding of standard output accepts, the moment the user presses
      Ctrl-C while a file is being processed) is collected in the
      interface [World]. *)

From Stdlib Require Import Ascii String QArith Lqa ZArith.
From stdpp Require Import gmap strings list fin_maps pretty.
Close Scope Q_scope.
Open Scope string_scope.

(* ===================================================================== *)
(** * Part I: definitions *)
(* ===================================================================== *)

(** ** Python [str] methods used by the script and by pathlib *)

Module PyStr.

(** [c.lower()] on one character.  File names are modelled as byte
    strings (UTF-8); only [A]..[Z] are mapped.  For the four suffixes the
    script accepts this agrees with Python's Unicode [lower]: no
    non-ASCII code point lowercases to one of the letters
    b, e, g, j, n, p, w. *)
Definition lower_ascii (c : ascii) : ascii :=
  let n := nat_of_ascii c in
  if (65 <=? n)%nat && (n <=? 90)%nat then ascii_of_nat (n + 32) else c.

(** [s.lower()] *)
Fixpoint lower (s : string) : string :=
  match s with
  | EmptyString => EmptyString
  | String c s' => String (lower_ascii c) (lower s')
  end.

(** [len(s)] *)
Definition len (s : string) : Z := Z.of_nat (String.length s).

(** [s.rfind(c)]: the highest index at which [c] occurs, [-1] if none. *)
Fixpoint rfind (c : ascii) (s : string) : Z :=
  match s with
  | EmptyString => -1
  | String a s' =>
      let i := rfind c s' in
      if (0 <=? i)%Z then (i + 1)%Z
      else if Ascii.eqb a c then 0%Z else (-1)%Z
  end.

(** [s[:n]] for a natural [n] *)
Fixpoint take (n : nat) (s : string) : string :=
  match n, s with
  | S n', String a s' => String a (take n' s')
  | _, _ => EmptyString
  end.

(** [s[n:]] for a natural [n] *)
Fixpoint drop (n : nat) (s : string) : string :=
  match n, s with
  | S n', String _ s' => drop n' s'
  | _, _ => s
  end.

(** [s[:i]] and [s[i:]] for a non-negative index [i] *)
Definition slice_to (s : string) (i : Z) : string := take (Z.to_nat i) s.
Definition slice_from (s : string) (i : Z) : string := drop (Z.to_nat i) s.

End PyStr.

(** ** pathlib: the pieces of [PurePath] the script touches

    [suffix] and [stem] as in CPython up to 3.13. *)

Module PurePath.

(** A path is its list of components, root first.  [iterdir] yields
    [dir / name] for every entry name, and a name is one component. *)
Abbreviation path := (list string).

(** [p / nm] for a single component [nm] *)
Definition joinpath (p : path) (nm : string) : path := (p ++ [nm])%list.

(** [p.name]: the final component *)
Definition name (p : path) : string := List.last p "".

(** [str(p)], used in messages only *)
Definition path_str (p : path) : string := String.concat "/" p.

(** [p.parent] *)
Definition parent (p : path) : path := removelast p.

(** [PurePath.suffix] on the final component:
<<
      i = name.rfind('.')
      if 0 < i < len(name) - 1: return name[i:]
      else: return ''
>> *)
Definition suffix_of (nm : string) : string :=
  let i := PyStr.rfind "." nm in
  if (0 <? i)%Z && (i <? PyStr.len nm - 1)%Z then PyStr.slice_from nm i
  else "".

(** [PurePath.stem] on the final component: the same test, [name[:i]]
    or the whole name. *)
Definition stem_of (nm : string) : string :=
  let i := PyStr.rfind "." nm in
  if (0 <? i)%Z && (i <? PyStr.len nm - 1)%Z then PyStr.slice_to nm i
  else nm.

Definition suffix (p : path) : string := suffix_of (name p).
Definition stem (p : path) : string := stem_of (name p).

End PurePath.

Import PurePath.

(** ** Exceptions and results *)

(** An instance of (a subclass of) [Exception]: its class name and
    [str(e)]. *)
Record pyerr := PyErr { cls : string; msg : string }.

(** What can propagate through the script: [KeyboardInterrupt] derives
    from [BaseException] only; everything the libraries raise derives from
    [Exception]. *)
Inductive exn :=
| KeyboardInterrupt
| Exception (e : pyerr).

(** [isinstance(e, Exception)], the test behind [except Exception] *)
Definition is_Exception (e : exn) : bool :=
  match e with
  | Exception _ => true
  | KeyboardInterrupt => false
  end.

Inductive result (A : Type) :=
| Ok (a : A)
| Raise (e : exn).
Arguments Ok {A} a.
Arguments Raise {A} e.

(** ** Images, as far as the script looks into them *)

(** A pixel is the tuple [getpixel] returns: one value in 0..255 per band. *)
Abbreviation pixel := (list Z).

Record Image := mkImage {
  mode : string;          (** [img.mode] *)
  size : Z * Z;           (** [img.size], (width, height) *)
  data : list pixel       (** row-major pixels, [width * height] of them *)
}.

(** [Image.Resampling] *)
Inductive Resampling := NEAREST | BOX | BILINEAR | HAMMING | BICUBIC | LANCZOS.

#[global] Instance Resampling_eq_dec : EqDecision Resampling.
Proof. solve_decision. Defined.

(** The [box] argument of [Image.resize]: (left, upper, right, lower) in
    source pixels.  [ImageOps.fit] computes it in floating point; every
    value it produces for a square target is an integer or a half-integer,
    so rationals represent it exactly (for sides below 2^53). *)
Abbreviation Box := (Q * Q * Q * Q)%type.

(** ** The file system *)

Abbreviation bytes := (list Byte.byte).

(** A directory node carries its entry names in enumeration order (the
    order [os.scandir] yields, which the script does not sort). *)
Inductive node :=
| File (content : bytes)
| Dir (entries : list string).

(** Outcome of writing [content] to a path that could be looked up. *)
Inductive write_outcome :=
| WriteOk
| OpenFails (e : pyerr)                    (** [open(path, "w+b")] raised *)
| WriteFails (e : pyerr) (partial : bytes) (** raised after truncation *).

(** The moment at which a Ctrl-C arrives during the iteration for one
    entry.  [KeyboardInterrupt] is raised at that point of the [try] body;
    when the body has left the [try] with an exception before reaching
    it, the interrupt arrives in the handler. *)
Inductive moment :=
| AtOpen                      (** before the file is opened *)
| InSave (partial : bytes)    (** while the encoder writes: the output file
                                  is open and holds [partial] *)
| AfterSave.                  (** [save] has returned, the progress line is
                                  not printed yet *)

(** ** The interface to Pillow and to the environment *)

Class World := {
  (** decoding the bytes of a file: [Image.open] and the lazy [load] *)
  decode : bytes -> pyerr + Image;
  (** pixel data of [img.convert(mode)] *)
  convert_data : Image -> string -> pyerr + list pixel;
  (** the resampling kernel behind [Image.resize] *)
  resample : Resampling -> Box -> Z * Z -> Image -> list pixel;
  (** the JPEG encoder: quality, optimize flag, image *)
  jpeg_encode : Z -> bool -> Image -> bytes;
  (** disk faults while saving *)
  write_fault : list string -> bytes -> write_outcome;
  (** does Ctrl-C arrive while this entry is being processed, and when? *)
  sigint : string -> option moment;
  (** [sys.stdout] encodes a line before it writes it: the
      [UnicodeEncodeError] for a line its encoding cannot represent (a
      file name with undecodable bytes on a UTF-8 stream, the emoji on an
      ASCII one), [None] for a line it accepts *)
  stdout_rejects : string -> option pyerr
}.

(** ** Program state and the monad the script runs in *)

Record state := mkState {
  fs : gmap (list string) node;
  stdout : list string
}.

Definition M (A : Type) : Type := state -> state * result A.

Definition ret {A} (a : A) : M A := fun st => (st, Ok a).

Definition raise {A} (e : exn) : M A := fun st => (st, Raise e).

Definition raise_err {A} (c m : string) : M A :=
  raise (Exception (PyErr c m)).

#[global] Instance M_ret : MRet M := @ret.

#[global] Instance M_bind : MBind M := fun A B (k : A -> M B) (m : M A) =>
  fun st =>
    match m st with
    | (st', Ok a) => k a st'
    | (st', Raise e) => (st', Raise e)
    end.

(** [try: body  except Exception as e: handler(e)].  A raised exception
    that is not an [Exception] passes through. *)
Definition try_except_Exception {A} (body : M A) (handler : pyerr -> M A) : M A :=
  fun st =>
    match body st with
    | (st', Ok a) => (st', Ok a)
    | (st', Raise (Exception e)) => handler e st'
    | (st', Raise KeyboardInterrupt) => (st', Raise KeyboardInterrupt)
    end.

(** Lifting a library answer into the monad *)
Definition lift_err {A} (r : pyerr + A) : M A :=
  match r with
  | inl e => raise (Exception e)
  | inr a => ret a
  end.

(** ** pathlib and builtins on the file system *)

Section FileSystem.
Context `{W : World}.

Definition set_fs (st : state) (t : gmap (list string) node) : state :=
  mkState t (stdout st).

(** [print(line)]: the line is encoded, then written; when the encoding
    fails nothing is written. *)
Definition print (line : string) : M unit := fun st =>
  match stdout_rejects line with
  | Some e => (st, Raise (Exception e))
  | None => (mkState (fs st) (stdout st ++ [line])%list, Ok tt)
  end.

(** Adding a directory entry: new names go to the end of the listing. *)
Definition add_entry (nm : string) (es : list string) : list string :=
  if bool_decide (nm ∈ es) then es else (es ++ [nm])%list.

(** [d.mkdir(exist_ok=True)] (with [parents=False]): [os.mkdir] and, when
    that raises [OSError], a re-raise unless [d] is a directory. *)
Definition mkdir_exist_ok (d : path) : M unit := fun st =>
  match fs st !! d with
  | Some (Dir _) => (st, Ok tt)
  | Some (File _) =>
      raise_err "FileExistsError"
        ("[Errno 17] File exists: '" ++ path_str d ++ "'") st
  | None =>
      match fs st !! parent d with
      | Some (Dir es) =>
          (set_fs st (<[d := Dir []]>
                        (<[parent d := Dir (add_entry (name d) es)]> (fs st))),
           Ok tt)
      | Some (File _) =>
          raise_err "NotADirectoryError"
            ("[Errno 20] Not a directory: '" ++ path_str d ++ "'") st
      | None =>
          raise_err "FileNotFoundError"
            ("[Errno 2] No such file or directory: '" ++ path_str d ++ "'") st
      end
  end.

(** [list(d.iterdir())]: the children of [d] in enumeration order. *)
Definition iterdir (d : path) : M (list path) := fun st =>
  match fs st !! d with
  | Some (Dir es) => (st, Ok (map (joinpath d) es))
  | Some (File _) =>
      raise_err "NotADirectoryError"
        ("[Errno 20] Not a directory: '" ++ path_str d ++ "'") st
  | None =>
      raise_err "FileNotFoundError"
        ("[Errno 2] No such file or directory: '" ++ path_str d ++ "'") st
  end.

(** [Image.open(p)], with the pixel data loaded. *)
Definition Image_open (p : path) : M Image := fun st =>
  match fs st !! p with
  | Some (File b) => lift_err (decode b) st
  | Some (Dir _) =>
      raise_err "IsADirectoryError"
        ("[Errno 21] Is a directory: '" ++ path_str p ++ "'") st
  | None =>
      raise_err "FileNotFoundError"
        ("[Errno 2] No such file or directory: '" ++ path_str p ++ "'") st
  end.

(** Modes the JPEG plugin can write ([RAWMODE] in JpegImagePlugin). *)
Definition jpeg_rawmodes : list string :=
  ["1"; "L"; "RGB"; "RGBX"; "CMYK"; "YCbCr"].

(** What a failed write leaves at [p]: [Image.save] removes the file if
    it created it; a file that was there before stays, truncated to the
    bytes written so far. *)
Definition failed_write (p : path) (partial : bytes)
    (t : gmap (list string) node) : gmap (list string) node :=
  match t !! p with
  | Some _ => <[p := File partial]> t
  | None => t
  end.

(** [img.save(p, 'JPEG', quality=q, optimize=o)]: open [p] with mode
    ["w+b"], run the JPEG save handler (which first rejects modes it
    cannot write), close.  [Image.save] removes what it created only on
    an [Exception]: a Ctrl-C while the encoder writes ([ctrl_c], with the
    bytes on disk by then) leaves the file as it is at that moment. *)
Definition Image_save (img : Image) (p : path) (q : Z) (o : bool)
    (ctrl_c : option bytes) : M unit :=
  fun st =>
    match fs st !! p, fs st !! parent p with
    | Some (Dir _), _ =>
        raise_err "IsADirectoryError"
          ("[Errno 21] Is a directory: '" ++ path_str p ++ "'") st
    | _, Some (Dir es) =>
        let content := jpeg_encode q o img in
        match write_fault p content with
        | OpenFails e => (st, Raise (Exception e))
        | outcome =>
            if bool_decide (mode img ∈ jpeg_rawmodes) then
              match ctrl_c, outcome with
              | Some partial, _ =>
                  (set_fs st (<[p := File partial]>
                     (<[parent p := Dir (add_entry (name p) es)]> (fs st))),
                   Raise KeyboardInterrupt)
              | None, WriteFails e partial =>
                  (set_fs st (failed_write p partial (fs st)),
                   Raise (Exception e))
              | None, _ =>
                  (set_fs st (<[p := File content]>
                     (<[parent p := Dir (add_entry (name p) es)]> (fs st))),
                   Ok tt)
              end
            else
              (set_fs st (failed_write p [] (fs st)),
               Raise (Exception (PyErr "OSError"
                 ("cannot write mode " ++ mode img ++ " as JPEG"))))
        end
    | _, _ =>
        raise_err "FileNotFoundError"
          ("[Errno 2] No such file or directory: '" ++ path_str p ++ "'") st
    end.

End FileSystem.

(** ** Pillow: the image operations the script calls

    Modelled after Pillow 9.1 and later (the script needs
    [Image.Resampling]): [Image.py], [ImageOps.py], [JpegImagePlugin.py]
    and, for the pixel arithmetic of [paste], [Paste.c]. *)

Module PIL.
Section PIL.
Context `{W : World}.

(** [Image.new(mode, size, color)] *)
Definition Image_new (m : string) (sz : Z * Z) (color : pixel) : Image :=
  mkImage m sz (replicate (Z.to_nat (fst sz * snd sz)) color).

(** Number of bands of a mode ([len(img.getbands())]) *)
Definition nbands (m : string) : nat :=
  if bool_decide (m ∈ ["RGBA"; "CMYK"; "RGBX"; "RGBa"]) then 4
  else if bool_decide (m ∈ ["RGB"; "YCbCr"; "LAB"; "HSV"]) then 3
  else if bool_decide (m ∈ ["LA"; "PA"; "La"]) then 2
  else 1.

(** [img.split()]: one ["L"] image per band *)
Definition split (img : Image) : list Image :=
  map (fun j => mkImage "L" (size img) (map (fun px => [nth j px 0%Z]) (data img)))
      (seq 0 (nbands (mode img))).

(** [t[-1]] on a tuple *)
Definition last_item {A} (t : list A) : M A :=
  match last t with
  | Some x => ret x
  | None => raise_err "IndexError" "tuple index out of range"
  end.

(** [img.convert(m)] *)
Definition Image_convert (img : Image) (m : string) : M Image :=
  d ← lift_err (convert_data img m);
  ret (mkImage m (size img) d).

(** The four bytes a pixel occupies in memory in the 32-bit modes: an
    ["LA"] pixel is stored as (L, L, L, A), ["RGBA"] as (R, G, B, A). *)
Definition storage32 (m : string) (px : pixel) : list Z :=
  if String.eqb m "LA" then
    match px with
    | [l; a] => [l; l; l; a]
    | _ => px
    end
  else px.

(** [DIV255] and [BLEND] of ImagingUtils.h, on [UINT8] operands *)
Definition DIV255 (a : Z) : Z :=
  let tmp := (a + 128)%Z in Z.shiftr (Z.shiftr tmp 8 + tmp) 8.

Definition BLEND (mask in1 in2 : Z) : Z :=
  (DIV255 (in1 * (255 - mask) + in2 * mask) mod 256)%Z.

(** One pixel of [paste] into an ["RGB"] image.  Without a mask the four
    stored bytes are copied; with an ["L"] mask every byte is blended.
    The fourth byte of an ["RGB"] pixel is padding and not part of the
    tuple. *)
Definition paste_pixel (m : string) (out inp : pixel) (mask : option Z) : pixel :=
  match mask with
  | None => take 3 (storage32 m inp)
  | Some a => zip_with (BLEND a) out (take 3 (storage32 m inp))
  end.

(** [self.paste(im, mask=mask)] for an ["RGB"] [self] and an [im] of the
    same size (box (0, 0)); returns [self] after the in-place update.
    Pillow converts [im] to ["RGB"] first unless its mode is one of
    ["RGB"], ["LA"], ["RGBA"], ["RGBa"].  Of the mask modes only ["L"]
    is modelled: the script's mask is a band returned by [split]. *)
Definition paste (self im : Image) (mask : option Image) : M Image :=
  im ← (if bool_decide (mode im ∈ ["RGB"; "LA"; "RGBA"; "RGBa"]) then ret im
        else Image_convert im (mode self));
  if negb (bool_decide (size im = size self)) then
    raise_err "ValueError" "images do not match"
  else
    match mask with
    | None =>
        ret (mkImage (mode self) (size self)
               (zip_with (fun o i => paste_pixel (mode im) o i None)
                  (data self) (data im)))
    | Some mk =>
        if negb (String.eqb (mode mk) "L") then
          raise_err "ValueError" "bad transparency mask"
        else if negb (bool_decide (size mk = size self)) then
          raise_err "ValueError" "images do not match"
        else
          ret (mkImage (mode self) (size self)
                 (zip_with (fun oi k => paste_pixel (mode im) (fst oi) (snd oi)
                                          (Some (nth 0 k 0%Z)))
                    (zip (data self) (data im)) (data mk)))
    end.

Definition Qz (z : Z) : Q := inject_Z z.

Definition Qlt_bool (a b : Q) : bool := negb (Qle_bool b a).

(** The C entry point behind [Image.resize]: argument checks, then the
    resampling kernel. *)
Definition core_resize (self : Image) (sz : Z * Z) (method : Resampling)
    (box : Box) : M Image :=
  let '(l, u, r, d) := box in
  if (fst sz <? 1)%Z || (snd sz <? 1)%Z then
    raise_err "ValueError" "height and width must be > 0"
  else if Qlt_bool l 0 || Qlt_bool u 0 then
    raise_err "ValueError" "box offset can't be negative"
  else if Qlt_bool (Qz (fst (size self))) r || Qlt_bool (Qz (snd (size self))) d then
    raise_err "ValueError" "box can't exceed original image size"
  else if Qlt_bool (r - l) 0 || Qlt_bool (d - u) 0 then
    raise_err "ValueError" "box can't be empty"
  else
    ret (mkImage (mode self) sz (resample method box sz self)).

(** [self.resize(size, resample, box)] *)
Definition Image_resize (self : Image) (sz : Z * Z) (method : Resampling)
    (box : Box) : M Image :=
  let '(l, u, r, d) := box in
  if bool_decide (size self = sz)
     && Qeq_bool l 0 && Qeq_bool u 0
     && Qeq_bool r (Qz (fst (size self))) && Qeq_bool d (Qz (snd (size self)))
  then ret self                                        (* [self.copy()] *)
  else
    let method :=
      if bool_decide (mode self ∈ ["1"; "P"]) then NEAREST else method in
    if bool_decide (mode self ∈ ["LA"; "RGBA"])
       && negb (bool_decide (method = NEAREST))
    then
      (* resized with premultiplied alpha *)
      im ← Image_convert self (if String.eqb (mode self) "LA" then "La" else "RGBa");
      im ← core_resize im sz method box;
      Image_convert im (mode self)
    else core_resize self sz method box.

(** [ImageOps.fit(image, size, method, bleed, centering)] *)
Definition ImageOps_fit (image : Image) (sz : Z * Z) (method : Resampling)
    (bleed : Q) (centering : Q * Q) : M Image :=
  let c0 := if Qle_bool 0 (fst centering) && Qle_bool (fst centering) 1
            then fst centering else (1 # 2)%Q in
  let c1 := if Qle_bool 0 (snd centering) && Qle_bool (snd centering) 1
            then snd centering else (1 # 2)%Q in
  let bleed := if Qle_bool 0 bleed && Qlt_bool bleed (1 # 2) then bleed else 0%Q in
  let bleed_pixels := (bleed * Qz (fst (size image)), bleed * Qz (snd (size image)))%Q in
  let live_size := (Qz (fst (size image)) - fst bleed_pixels * 2,
                    Qz (snd (size image)) - snd bleed_pixels * 2)%Q in
  if Qeq_bool (snd live_size) 0 then
    raise_err "ZeroDivisionError" "float division by zero"
  else if (snd sz =? 0)%Z then
    raise_err "ZeroDivisionError" "division by zero"
  else
    let live_size_ratio := (fst live_size / snd live_size)%Q in
    let output_ratio := (Qz (fst sz) / Qz (snd sz))%Q in
    crop ←
      (if Qeq_bool live_size_ratio output_ratio then
         ret live_size
       else if Qle_bool output_ratio live_size_ratio then
         ret (output_ratio * snd live_size, snd live_size)%Q
       else if Qeq_bool output_ratio 0 then
         raise_err "ZeroDivisionError" "float division by zero"
       else
         ret (fst live_size, fst live_size / output_ratio)%Q) : M (Q * Q);
    let crop_width := fst crop in
    let crop_height := snd crop in
    let crop_left := (fst bleed_pixels + (fst live_size - crop_width) * c0)%Q in
    let crop_top := (snd bleed_pixels + (snd live_size - crop_height) * c1)%Q in
    Image_resize image sz method
      (crop_left, crop_top, crop_left + crop_width, crop_top + crop_height)%Q.

End PIL.
End PIL.

(** ** The script *)

Section Script.
Context `{W : World}.

Definition nl : string := String (ascii_of_nat 10) "".

(** [image_extensions = {'.jpg', '.jpeg', '.png', '.webp'}] *)
Definition image_extensions : list string := [".jpg"; ".jpeg"; ".png"; ".webp"].

(** The filter of the list comprehension:
    [f.suffix.lower() in image_extensions] *)
Definition is_image_file (f : path) : bool :=
  bool_decide (PyStr.lower (suffix f) ∈ image_extensions).

(** Lines 33-38: bring the image to mode ["RGB"]. *)
Definition normalize_mode (img : Image) : M Image :=
  if bool_decide (mode img ∈ ["RGBA"; "LA"]) then
    let background := PIL.Image_new "RGB" (size img) [255; 255; 255]%Z in
    mask ← (if String.eqb (mode img) "RGBA"
            then b ← PIL.last_item (PIL.split img); ret (Some b)
            else ret None);
    PIL.paste background img mask
  else if negb (String.eqb (mode img) "RGB") then
    PIL.Image_convert img "RGB"
  else ret img.

(** [output_dir / f"{image_path.stem}.jpg"] *)
Definition output_path_for (output_dir image_path : path) : path :=
  joinpath output_dir (stem image_path ++ ".jpg").

(** A point of the [try] body at which a pending Ctrl-C surfaces as
    [KeyboardInterrupt]. *)
Definition interrupt_point (pending : option moment) (here : moment) : M unit :=
  match pending, here with
  | Some AtOpen, AtOpen | Some AfterSave, AfterSave => raise KeyboardInterrupt
  | _, _ => ret tt
  end.

(** The Ctrl-C that arrives while the encoder writes, if any. *)
Definition in_save (pending : option moment) : option bytes :=
  match pending with
  | Some (InSave partial) => Some partial
  | _ => None
  end.

(** The body of the [try] (lines 31-47). *)
Definition process_image (output_dir : path) (i total : nat)
    (image_path : path) : M unit :=
  let pending := sigint (name image_path) in
  interrupt_point pending AtOpen;;
  img ← Image_open image_path;
  img ← normalize_mode img;
  img_resized ← PIL.ImageOps_fit img (400, 400)%Z LANCZOS 0%Q (1 # 2, 1 # 2)%Q;
  Image_save img_resized (output_path_for output_dir image_path) 85 true
    (in_save pending);;
  interrupt_point pending AfterSave;;
  print ("Resized " ++ pretty i ++ "/" ++ pretty total ++ ": " ++ name image_path).

(** One iteration of the loop (lines 29-50).  The handler's own [print]
    is not guarded: what it raises leaves the loop.  A Ctrl-C whose moment
    the body did not reach arrives in the handler. *)
Definition loop_body (output_dir : path) (total : nat) (i : nat)
    (image_path : path) : M unit :=
  try_except_Exception
    (process_image output_dir i total image_path)
    (fun e =>
       match sigint (name image_path) with
       | Some _ => raise KeyboardInterrupt
       | None => print ("Error processing " ++ name image_path ++ ": " ++ msg e)
       end).

(** [for i, x in enumerate(xs, start): body(i, x)] *)
Fixpoint for_enumerate {A} (body : nat -> A -> M unit) (start : nat)
    (xs : list A) : M unit :=
  match xs with
  | [] => ret tt
  | x :: xs' => body start x;; for_enumerate body (S start) xs'
  end.

Definition cocktails_dir (script_parent : path) : path :=
  joinpath (joinpath script_parent "assets") "cocktails".

Definition output_dir (script_parent : path) : path :=
  joinpath (joinpath script_parent "assets") "cocktails-resized".

Definition banner (script_parent : path) : list string :=
  [nl ++ "✅ All images resized successfully!";
   "Resized images saved to: " ++ path_str (output_dir script_parent);
   "After verifying the resized images, replace the original folder."].

(** [resize_images()]; [script_parent] is [Path(__file__).parent.parent]. *)
Definition resize_images (script_parent : path) : M unit :=
  mkdir_exist_ok (output_dir script_parent);;
  entries ← iterdir (cocktails_dir script_parent);
  let image_files := List.filter is_image_file entries in
  print ("Found " ++ pretty (length image_files) ++ " images to resize...");;
  for_enumerate (loop_body (output_dir script_parent) (length image_files)) 1
    image_files;;
  print (nl ++ "✅ All images resized successfully!");;
  print ("Resized images saved to: " ++ path_str (output_dir script_parent));;
  print "After verifying the resized images, replace the original folder.".

(** The [__main__] block: runs [resize_images] and yields the final state
    with the process exit status.  When the [print] of a handler raises,
    nothing is written to standard output and the interpreter ends the
    process with status 1 all the same. *)
Definition main (script_parent : path) (st : state) : state * Z :=
  match resize_images script_parent st with
  | (st', Ok _) => (st', 0%Z)
  | (st', Raise KeyboardInterrupt) =>
      (fst (print (nl ++ "❌ Process interrupted by user") st'), 1%Z)
  | (st', Raise (Exception e)) =>
      (fst (print ("❌ Error: " ++ msg e) st'), 1%Z)
  end.

End Script.

(** ** The geometry of a fit, in the words of the specification *)

Module FitSpec.








End FitSpec.

(** ** Vocabulary for the properties of the loop *)

(** [returns m P]: the computation [m] neither reads nor writes the state
    and its result satisfies [P]. *)
Definition returns {A} (m : M A) (P : result A -> Prop) : Prop :=
  exists r, P r /\ forall st, m st = (st, r).

(** A result that is a value satisfying [P], or an [Exception]. *)
Definition ok_and {A} (P : A -> Prop) (r : result A) : Prop :=
  match r with
  | Ok a => P a
  | Raise e => is_Exception e = true
  end.

Section Vocabulary.
Context `{W : World}.

(** Lines 31-41 in one piece: open, normalise the mode, fit. *)
Definition render (image_path : path) : M Image :=
  img ← Image_open image_path;
  img ← normalize_mode img;
  PIL.ImageOps_fit img (400, 400)%Z LANCZOS 0%Q (1 # 2, 1 # 2)%Q.

(** What one iteration does to the file system: nothing, a file that was
    there cut down to the bytes of a failed write, or a file written
    (completely, or as far as the encoder got before a Ctrl-C). *)
Inductive effect :=
| Untouched
| Truncated (partial : bytes)
| Saved (content : bytes).

(** How one iteration ends: it has printed its line and the loop goes on,
    or an exception leaves the loop. *)
Inductive ending :=
| Printed (line : string)
| Leaves (e : exn).

Definition error_line (image_path : path) (e : pyerr) : string :=
  "Error processing " ++ name image_path ++ ": " ++ msg e.

Definition resized_line (i total : nat) (image_path : path) : string :=
  "Resized " ++ pretty i ++ "/" ++ pretty total ++ ": " ++ name image_path.

(** The file system after a save has put [content] at [p]. *)
Definition written (p : path) (content : bytes)
    (t : gmap (list string) node) : gmap (list string) node :=
  match t !! parent p with
  | Some (Dir es) =>
      <[p := File content]> (<[parent p := Dir (add_entry (name p) es)]> t)
  | _ => t
  end.

Definition apply_effect (eff : effect) (out : path)
    (t : gmap (list string) node) : gmap (list string) node :=
  match eff with
  | Untouched => t
  | Truncated partial => failed_write out partial t
  | Saved content => written out content t
  end.

(** What saving [img] at [out] will do, read off the file system. *)
Definition save_plan (img : Image) (out : path) (ctrl_c : option bytes)
    (t : gmap (list string) node) : effect * result unit :=
  match t !! out, t !! parent out with
  | Some (Dir _), _ =>
      (Untouched,
       Raise (Exception (PyErr "IsADirectoryError"
                ("[Errno 21] Is a directory: '" ++ path_str out ++ "'"))))
  | _, Some (Dir _) =>
      match write_fault out (jpeg_encode 85 true img) with
      | OpenFails e => (Untouched, Raise (Exception e))
      | outcome =>
          if bool_decide (mode img ∈ jpeg_rawmodes) then
            match ctrl_c, outcome with
            | Some partial, _ => (Saved partial, Raise KeyboardInterrupt)
            | None, WriteFails e partial =>
                (Truncated partial, Raise (Exception e))
            | None, _ => (Saved (jpeg_encode 85 true img), Ok tt)
            end
          else
            (Truncated [],
             Raise (Exception (PyErr "OSError"
                      ("cannot write mode " ++ mode img ++ " as JPEG"))))
      end
  | _, _ =>
      (Untouched,
       Raise (Exception (PyErr "FileNotFoundError"
                ("[Errno 2] No such file or directory: '" ++ path_str out ++ "'"))))
  end.

(** What the body of the [try] will do for [image_path] on the file
    system [t]: its effect, and whether it returns or what it raises. *)
Definition attempt (out_dir : path) (i total : nat) (image_path : path)
    (t : gmap (list string) node) : effect * result unit :=
  let pending := sigint (name image_path) in
  match pending with
  | Some AtOpen => (Untouched, Raise KeyboardInterrupt)
  | _ =>
      match (render image_path (mkState t [])).2 with
      | Raise e => (Untouched, Raise e)
      | Ok img =>
          match save_plan img (output_path_for out_dir image_path)
                  (in_save pending) t with
          | (eff, Raise e) => (eff, Raise e)
          | (eff, Ok _) =>
              match pending with
              | Some AfterSave => (eff, Raise KeyboardInterrupt)
              | _ =>
                  match stdout_rejects (resized_line i total image_path) with
                  | Some e => (eff, Raise (Exception e))
                  | None => (eff, Ok tt)
                  end
              end
          end
      end
  end.

(** What the whole iteration will do: the attempt, then the handler. *)
Definition plan_step (out_dir : path) (i total : nat) (image_path : path)
    (t : gmap (list string) node) : effect * ending :=
  match attempt out_dir i total image_path t with
  | (eff, Ok _) => (eff, Printed (resized_line i total image_path))
  | (eff, Raise KeyboardInterrupt) => (eff, Leaves KeyboardInterrupt)
  | (eff, Raise (Exception e)) =>
      match sigint (name image_path) with
      | Some _ => (eff, Leaves KeyboardInterrupt)
      | None =>
          match stdout_rejects (error_line image_path e) with
          | Some e' => (eff, Leaves (Exception e'))
          | None => (eff, Printed (error_line image_path e))
          end
      end
  end.

(** Carrying a planned iteration out on a state. *)
Definition run_step (s : effect * ending) (out : path) (st : state)
    : state * result unit :=
  let t := apply_effect s.1 out (fs st) in
  match s.2 with
  | Printed line => (mkState t (stdout st ++ [line]), Ok tt)
  | Leaves e => (mkState t (stdout st), Raise e)
  end.

(** The loop running to its end, as a relation: from state [st],
    attempting the files in order with counter [i] prints [lines] and
    ends in [st'].  A failed attempt contributes its error line and the
    loop goes on from the state the attempt left. *)
Inductive loop_trace (out_dir : path) (total : nat) :
    nat -> list path -> state -> list string -> state -> Prop :=
| trace_done i st :
    loop_trace out_dir total i [] st [] st
| trace_resized i f files st st1 lines st' :
    process_image out_dir i total f st = (st1, Ok tt) ->
    loop_trace out_dir total (S i) files st1 lines st' ->
    loop_trace out_dir total i (f :: files) st
      (resized_line i total f :: lines) st'
| trace_error i f files st st1 e lines st' :
    process_image out_dir i total f st = (st1, Raise (Exception e)) ->
    loop_trace out_dir total (S i) files
      (mkState (fs st1) (stdout st1 ++ [error_line f e])%list) lines st' ->
    loop_trace out_dir total i (f :: files) st
      (error_line f e :: lines) st'.

(** The list the script iterates over, given the entry names of the
    source directory. *)
Definition image_files_of (src : path) (entries : list string) : list path :=
  List.filter is_image_file (map (joinpath src) entries).

Definition found_line (n : nat) : string :=
  "Found " ++ pretty n ++ " images to resize...".

(** [print] for each line in turn, up to the first that raises. *)
Fixpoint print_all (lines : list string) : M unit :=
  match lines with
  | [] => ret tt
  | line :: lines' => print line;; print_all lines'
  end.

(** *** The loop seen from one path

    The effect of the loop is read path by path: each iteration applies
    to the node at every path one of four functions, none of which turns
    a directory into a file or back. *)

Inductive cellfn :=
| CKeep                        (** untouched *)
| CPut (content : bytes)       (** a save *)
| CTorn (partial : bytes)      (** a save that failed after truncation *)
| CList (nm : string).         (** a new entry in a directory listing *)

Definition cell_apply (c : cellfn) (x : option node) : option node :=
  match c, x with
  | CKeep, _ => x
  | CPut _, Some (Dir _) => x
  | CPut b, _ => Some (File b)
  | CTorn b, Some (File _) => Some (File b)
  | CTorn _, _ => x
  | CList nm, Some (Dir es) => Some (Dir (add_entry nm es))
  | CList _, _ => x
  end.

Definition cells_apply (cs : list cellfn) (x : option node) : option node :=
  foldl (fun x c => cell_apply c x) x cs.

(** The listing of a directory after the cell functions [cs]. *)
Definition listing_after (cs : list cellfn) (es : list string) : list string :=
  foldl (fun es c => match c with CList nm => add_entry nm es | _ => es end) es cs.

(** [y] keeps what [x] holds: a file stays a file, a directory stays a
    directory and lists at least what it listed. *)
Definition kept (x y : option node) : Prop :=
  match x with
  | None => True
  | Some (File _) => exists b, y = Some (File b)
  | Some (Dir es) =>
      exists es', y = Some (Dir es') /\ forall nm, nm ∈ es -> nm ∈ es'
  end.

Definition is_dir (x : option node) : bool :=
  match x with
  | Some (Dir _) => true
  | _ => false
  end.

(** What an effect does to the node at [q]. *)
Definition effect_cell (eff : effect) (out_dir out q : path) : cellfn :=
  match eff with
  | Saved content =>
      if decide (q = out) then CPut content
      else if decide (q = out_dir) then CList (name out)
      else CKeep
  | Truncated partial => if decide (q = out) then CTorn partial else CKeep
  | Untouched => CKeep
  end.

(** What the loop over [files], counting from [i], does to the node at
    [q], planned on the file system [t0]; the iteration that leaves the
    loop is the last one. *)
Fixpoint loop_cells (out_dir : path) (total i : nat)
    (t0 : gmap (list string) node) (files : list path) (q : path)
    : list cellfn :=
  match files with
  | [] => []
  | f :: files' =>
      let s := plan_step out_dir i total f t0 in
      effect_cell s.1 out_dir (output_path_for out_dir f) q ::
        match s.2 with
        | Printed _ => loop_cells out_dir total (S i) t0 files' q
        | Leaves _ => []
        end
  end.

(** The lines the loop prints, and how it ends. *)
Fixpoint loop_lines (out_dir : path) (total i : nat)
    (t0 : gmap (list string) node) (files : list path) : list string :=
  match files with
  | [] => []
  | f :: files' =>
      match (plan_step out_dir i total f t0).2 with
      | Printed line => line :: loop_lines out_dir total (S i) t0 files'
      | Leaves _ => []
      end
  end.

Fixpoint loop_result (out_dir : path) (total i : nat)
    (t0 : gmap (list string) node) (files : list path) : result unit :=
  match files with
  | [] => Ok tt
  | f :: files' =>
      match (plan_step out_dir i total f t0).2 with
      | Printed _ => loop_result out_dir total (S i) t0 files'
      | Leaves e => Raise e
      end
  end.

(** The cell functions of a whole run, once [mkdir] is done, on a source
    directory that lists [es]: the loop is not reached when the count
    line cannot be printed. *)
Definition run_cells (root : path) (t0 : gmap (list string) node)
    (es : list string) (q : path) : list cellfn :=
  let files := image_files_of (cocktails_dir root) es in
  match stdout_rejects (found_line (length files)) with
  | Some _ => []
  | None => loop_cells (output_dir root) (length files) 1 t0 files q
  end.

(** [t] looks like [t0] to the loop: same source directory and source
    files, directories in the same places. *)
Definition same_view (src : path) (files : list path)
    (t0 t : gmap (list string) node) : Prop :=
  t !! src = t0 !! src /\
  (forall f, f ∈ files -> t !! f = t0 !! f) /\
  (forall q, is_dir (t !! q) = is_dir (t0 !! q)).

End Vocabulary.

(** ** A small concrete world, for running the script on examples *)

Module Demo.

Definition byte_of_Z (z : Z) : Byte.byte :=
  default Byte.x00 (Byte.of_N (Z.to_N (z mod 256))).

Definition Z_of_byte (b : Byte.byte) : Z := Z.of_N (Byte.to_N b).

(** Cut a flat list of band values into pixels of [n] bands. *)
Fixpoint chunks (fuel n : nat) (l : list Z) : list pixel :=
  match fuel, l with
  | S fuel', _ :: _ => take n l :: chunks fuel' n (drop n l)
  | _, _ => []
  end.

(** A toy container format: tag byte (1 RGB, 2 RGBA, 3 LA, 4 L, 5 CMYK),
    width, height, then the band values pixel by pixel. *)
Definition demo_decode (b : bytes) : pyerr + Image :=
  match map Z_of_byte b with
  | tag :: w :: h :: rest =>
      let mk m n := inr (mkImage m (w, h) (chunks (length rest) n rest)) in
      if (tag =? 1)%Z then mk "RGB" 3%nat
      else if (tag =? 2)%Z then mk "RGBA" 4%nat
      else if (tag =? 3)%Z then mk "LA" 2%nat
      else if (tag =? 4)%Z then mk "L" 1%nat
      else if (tag =? 5)%Z then mk "CMYK" 4%nat
      else inl (PyErr "UnidentifiedImageError" "cannot identify image file")
  | _ => inl (PyErr "UnidentifiedImageError" "cannot identify image file")
  end.

Definition demo_convert (img : Image) (m : string) : pyerr + list pixel :=
  if String.eqb (mode img) "L" && String.eqb m "RGB" then
    inr (map (fun px => let l := nth 0 px 0%Z in [l; l; l]) (data img))
  else inl (PyErr "ValueError" "conversion not supported").

(** Stand-in kernel: every output pixel is the first source pixel. *)
Definition demo_resample (_ : Resampling) (_ : Box) (sz : Z * Z)
    (img : Image) : list pixel :=
  replicate (Z.to_nat (fst sz * snd sz)) (hd [] (data img)).

(** Stand-in encoder: SOI marker, quality, then the first pixel. *)
Definition demo_encode (q : Z) (o : bool) (img : Image) : bytes :=
  [Byte.xff; Byte.xd8; byte_of_Z q]%list
    ++ map byte_of_Z (hd [] (data img)).

Definition demo_fault (p : list string) (content : bytes) : write_outcome :=
  if String.eqb (name p) "full.jpg" then
    OpenFails (PyErr "OSError" "[Errno 28] No space left on device")
  else if String.eqb (name p) "torn.jpg" then
    WriteFails (PyErr "OSError" "[Errno 5] Input/output error") [Byte.xff]
  else WriteOk.

Definition demo_sigint (nm : string) : option moment :=
  if String.eqb nm "ctrl-c.png" then Some AtOpen
  else if String.eqb nm "ctrl-c-saving.png" then Some (InSave [Byte.xff; Byte.xd8])
  else if String.eqb nm "ctrl-c-saved.png" then Some AfterSave
  else None.

(** The byte 0xFF never occurs in UTF-8: in a file name it is a byte the
    file system encoding could not decode. *)
Definition byte_ff : ascii := Ascii true true true true true true true true.

Fixpoint has_byte_ff (s : string) : bool :=
  match s with
  | EmptyString => false
  | String a s' => Ascii.eqb a byte_ff || has_byte_ff s'
  end.

(** Stand-in for a UTF-8 standard output: a line is refused when it
    carries an undecodable byte. *)
Definition demo_stdout (line : string) : option pyerr :=
  if has_byte_ff line then
    Some (PyErr "UnicodeEncodeError"
            "'utf-8' codec can't encode character '\udcff': surrogates not allowed")
  else None.

(** A file name with an undecodable byte and an image suffix. *)
Definition odd_name : string := "bad" ++ String byte_ff ".png".

#[export] Instance demo_world : World := {|
  decode := demo_decode;
  convert_data := demo_convert;
  resample := demo_resample;
  jpeg_encode := demo_encode;
  write_fault := demo_fault;
  sigint := demo_sigint;
  stdout_rejects := demo_stdout
|}.

Definition file_of (l : list Z) : node := File (map byte_of_Z l).

(** A project tree: [proj/assets/cocktails] with the given entries and no
    destination directory yet. *)
Definition tree (entries : list (string * node)) : gmap (list string) node :=
  foldr (fun e t => <[ ["proj"; "assets"; "cocktails"; e.1] := e.2 ]> t)
    (<[ ["proj"] := Dir ["assets"] ]>
     (<[ ["proj"; "assets"] := Dir ["cocktails"] ]>
      (<[ ["proj"; "assets"; "cocktails"] := Dir (map fst entries) ]> ∅)))
    entries.

Definition start (entries : list (string * node)) : state :=
  mkState (tree entries) [].

(** Example inputs: an opaque RGB pixel, a transparent RGBA pixel over
    black, a transparent LA pixel over black, and garbage. *)
Definition rgb_1x1 : node := file_of [1; 1; 1; 10; 20; 30]%Z.
Definition rgba_1x1_clear : node := file_of [2; 1; 1; 0; 0; 0; 0]%Z.
Definition la_1x1_clear : node := file_of [3; 1; 1; 0; 0]%Z.
Definition garbage : node := file_of [9]%Z.

End Demo.

(** The same world with a kernel that answers with a single pixel, for
    examples that have to write the resized image down. *)
Module DemoThumb.

Definition thumb_resample (_ : Resampling) (_ : Box) (_ : Z * Z)
    (img : Image) : list pixel :=
  [hd [] (data img)].

#[export] Instance thumb_world : World := {|
  decode := Demo.demo_decode;
  convert_data := Demo.demo_convert;
  resample := thumb_resample;
  jpeg_encode := Demo.demo_encode;
  write_fault := Demo.demo_fault;
  sigint := Demo.demo_sigint;
  stdout_rejects := Demo.demo_stdout
|}.

End DemoThumb.

(* ===================================================================== *)
(** * Part II: properties *)
(* ===================================================================== *)

(** ** File names: suffix and stem *)

Lemma append_String (a : ascii) (s t : string) :
  String a s ++ t = String a (s ++ t).
Proof. reflexivity. Qed.

Lemma append_empty_r (s : string) : s ++ "" = s.
Proof.
  induction s as [|a s IH]; [done|]. by rewrite append_String, IH.
Qed.

Lemma take_drop_string (n : nat) (s : string) :
  PyStr.take n s ++ PyStr.drop n s = s.
Proof.
  revert s; induction n as [|n IH]; intros [|a s]; simpl; try reflexivity.
  by rewrite append_String, IH.
Qed.

Lemma rfind_lower_bound (c : ascii) (s : string) : (-1 <= PyStr.rfind c s)%Z.
Proof.
  induction s as [|a s IH]; simpl; [lia|].
  destruct (0 <=? PyStr.rfind c s)%Z eqn:E; [apply Z.leb_le in E; lia|].
  destruct (Ascii.eqb a c); lia.
Qed.

(** A name is its stem followed by its suffix. *)
Lemma stem_suffix (nm : string) : stem_of nm ++ suffix_of nm = nm.
Proof.
  unfold stem_of, suffix_of, PyStr.slice_to, PyStr.slice_from.
  destruct (_ && _).
  - apply take_drop_string.
  - apply append_empty_r.
Qed.

Lemma name_joinpath (d : path) (nm : string) : name (joinpath d nm) = nm.
Proof. unfold name, joinpath. apply last_last. Qed.

Lemma parent_joinpath (d : path) (nm : string) : parent (joinpath d nm) = d.
Proof. unfold parent, joinpath. apply removelast_last. Qed.

Lemma lower_ascii_dot (c : ascii) :
  Ascii.eqb (PyStr.lower_ascii c) "." = Ascii.eqb c ".".
Proof.
  destruct c as [[] [] [] [] [] [] [] []]; reflexivity.
Qed.

Lemma rfind_dot_lower (s : string) :
  PyStr.rfind "." (PyStr.lower s) = PyStr.rfind "." s.
Proof.
  induction s as [|a s IH]; simpl; [done|].
  by rewrite IH, lower_ascii_dot.
Qed.

Lemma length_lower (s : string) :
  String.length (PyStr.lower s) = String.length s.
Proof. induction s as [|a s IH]; simpl; congruence. Qed.

Lemma drop_lower (n : nat) (s : string) :
  PyStr.drop n (PyStr.lower s) = PyStr.lower (PyStr.drop n s).
Proof. revert s; induction n as [|n IH]; intros [|a s]; simpl; auto. Qed.

(** Lower-casing a name lower-cases its suffix: the test of the
    enumeration does not see the case of the file name. *)
Lemma suffix_of_lower (nm : string) :
  suffix_of (PyStr.lower nm) = PyStr.lower (suffix_of nm).
Proof.
  unfold suffix_of, PyStr.len, PyStr.slice_from.
  rewrite rfind_dot_lower, length_lower.
  destruct (_ && _); [apply drop_lower | done].
Qed.

Lemma lower_ascii_idem (c : ascii) :
  PyStr.lower_ascii (PyStr.lower_ascii c) = PyStr.lower_ascii c.
Proof.
  destruct c as [[] [] [] [] [] [] [] []]; reflexivity.
Qed.

Lemma lower_idem (s : string) : PyStr.lower (PyStr.lower s) = PyStr.lower s.
Proof.
  induction s as [|a s IH]; simpl; [done|]. by rewrite IH, lower_ascii_idem.
Qed.

(** ** Mode normalisation: compositing onto white *)

Section Normalize.
Context `{W : World}.

Lemma BLEND_transparent_white (v : Z) : PIL.BLEND 0 255 v = 255%Z.
Proof. unfold PIL.BLEND. rewrite Z.mul_0_r. reflexivity. Qed.

(** On an ["RGBA"] image the script pastes through the alpha band. *)
Lemma normalize_mode_RGBA (img : Image) (st : state) :
  mode img = "RGBA" ->
  normalize_mode img st =
    (st, Ok (mkImage "RGB" (size img)
               (zip_with (fun oi k => PIL.paste_pixel "RGBA" oi.1 oi.2 (Some (nth 0 k 0%Z)))
                  (zip (replicate (Z.to_nat ((size img).1 * (size img).2)) [255; 255; 255]%Z)
                       (data img))
                  (map (fun px => [nth 3 px 0%Z]) (data img))))).
Proof.
  intros Hm. unfold normalize_mode. rewrite Hm. simpl.
  unfold PIL.paste, PIL.split. rewrite Hm. simpl.
  unfold mbind, M_bind, mret, M_ret, ret. simpl.
  rewrite Hm. simpl. rewrite bool_decide_true by done. reflexivity.
Qed.

(** On an ["LA"] image the script pastes with [mask=None]: the canvas is
    overwritten by the grey value of every pixel, whatever its alpha. *)
Lemma normalize_mode_LA (img : Image) (st : state) :
  mode img = "LA" ->
  normalize_mode img st =
    (st, Ok (mkImage "RGB" (size img)
               (zip_with (fun o i => take 3 (PIL.storage32 "LA" i))
                  (replicate (Z.to_nat ((size img).1 * (size img).2)) [255; 255; 255]%Z)
                  (data img)))).
Proof.
  intros Hm. unfold normalize_mode. rewrite Hm. simpl.
  unfold PIL.paste. rewrite Hm. simpl.
  unfold mbind, M_bind, mret, M_ret, ret. simpl.
  rewrite Hm. simpl. rewrite bool_decide_true by done. reflexivity.
Qed.

End Normalize.

(** Fully transparent pixels of an ["RGBA"] input come out white. *)
Theorem normalize_mode_RGBA_transparent_white `{W : World}
    (img : Image) (st : state) :
  mode img = "RGBA" ->
  length (data img) = Z.to_nat ((size img).1 * (size img).2) ->
  exists out,
    normalize_mode img st = (st, Ok out) /\
    mode out = "RGB" /\ size out = size img /\
    forall (i : nat) (r g b : Z),
      data img !! i = Some [r; g; b; 0]%Z ->
      data out !! i = Some [255; 255; 255]%Z.
Proof.
  intros Hm Hlen. eexists. split; [by apply normalize_mode_RGBA|].
  repeat split. simpl. intros i r g b Hi.
  rewrite lookup_zip_with. rewrite lookup_zip_with.
  rewrite lookup_replicate_2 by (apply lookup_lt_Some in Hi; lia).
  rewrite list_lookup_fmap, Hi. simpl.
  unfold PIL.paste_pixel. simpl.
  by rewrite !BLEND_transparent_white.
Qed.

Lemma normalize_mode_RGBA_transparent_white_witness :
  exists out,
    normalize_mode (W := Demo.demo_world)
      (mkImage "RGBA" (1, 1)%Z [[0; 0; 0; 0]%Z]) (Demo.start []) =
      (Demo.start [], Ok out) /\
    data out !! 0%nat = Some [255; 255; 255]%Z.
Proof.
  destruct (normalize_mode_RGBA_transparent_white (W := Demo.demo_world)
              (mkImage "RGBA" (1, 1)%Z [[0; 0; 0; 0]%Z]) (Demo.start []))
    as (out & Hrun & _ & _ & Hpx); [reflexivity | reflexivity |].
  exists out. split; [exact Hrun|]. apply (Hpx 0%nat 0%Z 0%Z 0%Z). reflexivity.
Defined.

(** Every well-formed pixel (L, A) of an ["LA"] input comes out as
    (L, L, L): its alpha plays no part. *)
Lemma normalize_mode_LA_ignores_alpha `{W : World} (img : Image) (st : state) :
  mode img = "LA" ->
  length (data img) = Z.to_nat ((size img).1 * (size img).2) ->
  exists out,
    normalize_mode img st = (st, Ok out) /\
    forall (i : nat) (l a : Z),
      data img !! i = Some [l; a] -> data out !! i = Some [l; l; l].
Proof.
  intros Hm Hlen. eexists. split; [by apply normalize_mode_LA|].
  simpl. intros i l a Hi.
  rewrite lookup_zip_with.
  rewrite lookup_replicate_2 by (apply lookup_lt_Some in Hi; lia).
  by rewrite Hi.
Qed.

(** C1.  The specification asks that, for ["LA"] inputs too, a fully transparent
    source pixel becomes white.  The script passes [mask=None] for ["LA"]:
    a 1x1 ["LA"] image whose only pixel is black and fully transparent
    (L = 0, A = 0) is normalised to the single black pixel (0, 0, 0). *)
Theorem normalize_mode_LA_transparent_stays_black `{W : World} (st : state) :
  normalize_mode (mkImage "LA" (1, 1)%Z [[0; 0]%Z]) st =
    (st, Ok (mkImage "RGB" (1, 1)%Z [[0; 0; 0]%Z]))
  /\ [0; 0; 0]%Z <> [255; 255; 255]%Z.
Proof.
  split; [|discriminate].
  by rewrite normalize_mode_LA.
Qed.

(** ** [ImageOps.fit]: the crop box and the single resize *)

Section Fit.
Context `{W : World}.
Open Scope Q_scope.

Lemma Qlt_bool_true (a b : Q) : PIL.Qlt_bool a b = true <-> a < b.
Proof.
  unfold PIL.Qlt_bool. rewrite negb_true_iff.
  split.
  - intros E. apply Qnot_le_lt. intros H. apply Qle_bool_iff in H. congruence.
  - intros H. destruct (Qle_bool b a) eqn:E; [|done].
    apply Qle_bool_iff in E. exfalso. eapply Qlt_not_le; eauto.
Qed.














End Fit.


(** ** The monad: running binds, stateless computations *)

Section Monad.
Context `{W : World}.

Lemma bind_run {A B} (m : M A) (k : A -> M B) (st : state) :
  (m ≫= k) st =
    match m st with
    | (st', Ok a) => k a st'
    | (st', Raise e) => (st', Raise e)
    end.
Proof. reflexivity. Qed.

Lemma returns_ret {A} (a : A) (P : result A -> Prop) :
  P (Ok a) -> returns (ret a) P.
Proof. intros H. exists (Ok a). split; [done|]. reflexivity. Qed.

Lemma returns_mret {A} (a : A) (P : result A -> Prop) :
  P (Ok a) -> returns (mret a) P.
Proof. apply returns_ret. Qed.

Lemma returns_raise_err {A} (c m : string) (P : result A -> Prop) :
  P (Raise (Exception (PyErr c m))) -> returns (raise_err c m) P.
Proof. intros H. eexists. split; [exact H|]. reflexivity. Qed.

Lemma returns_lift_err {A} (r : pyerr + A) (P : result A -> Prop) :
  (forall a, r = inr a -> P (Ok a)) ->
  (forall e, r = inl e -> P (Raise (Exception e))) ->
  returns (lift_err r) P.
Proof.
  intros Hok Herr. destruct r as [e|a]; simpl.
  - eexists. split; [by apply Herr|]. reflexivity.
  - eexists. split; [by apply Hok|]. reflexivity.
Qed.

Lemma returns_bind {A B} (m : M A) (k : A -> M B)
    (P : result A -> Prop) (Q : result B -> Prop) :
  returns m P ->
  (forall a, P (Ok a) -> returns (k a) Q) ->
  (forall e, P (Raise e) -> Q (Raise e)) ->
  returns (m ≫= k) Q.
Proof.
  intros (r & Hr & Hm) Hk He. destruct r as [a|e].
  - destruct (Hk a Hr) as (r' & Hr' & Hka). exists r'. split; [done|].
    intros st. by rewrite bind_run, Hm, Hka.
  - exists (Raise e). split; [by apply He|].
    intros st. by rewrite bind_run, Hm.
Qed.

Lemma returns_weaken {A} (m : M A) (P Q : result A -> Prop) :
  returns m P -> (forall r, P r -> Q r) -> returns m Q.
Proof. intros (r & Hr & Hm) H. exists r. split; auto. Qed.

End Monad.
(** ** The pipeline of one file: open, normalise, fit *)

Section Render.
Context `{W : World}.

Lemma Image_convert_returns (img : Image) (m : string) :
  returns (PIL.Image_convert img m)
    (ok_and (fun img' => mode img' = m /\ size img' = size img)).
Proof.
  unfold PIL.Image_convert.
  eapply returns_bind with (P := ok_and (fun _ => True)).
  - apply returns_lift_err; simpl; auto.
  - intros d _. apply returns_mret. simpl. auto.
  - intros e He. exact He.
Qed.

Lemma normalize_mode_returns (img : Image) :
  returns (normalize_mode img)
    (ok_and (fun img' => mode img' = "RGB" /\ size img' = size img)).
Proof.
  destruct (decide (mode img ∈ ["RGBA"; "LA"])) as [Hm|Hm].
  - assert (mode img = "RGBA" \/ mode img = "LA") as [E|E].
    { apply elem_of_cons in Hm as [Hm|Hm]; [by left|].
      apply list_elem_of_singleton in Hm. by right. }
    + eexists. split; [|intros st; by apply normalize_mode_RGBA].
      simpl. auto.
    + eexists. split; [|intros st; by apply normalize_mode_LA].
      simpl. auto.
  - unfold normalize_mode. rewrite bool_decide_false by done.
    destruct (String.eqb (mode img) "RGB") eqn:E; simpl.
    + apply returns_ret. simpl. split; [|done]. by apply String.eqb_eq.
    + apply Image_convert_returns.
Qed.

Lemma core_resize_returns (img : Image) (sz : Z * Z) (m : Resampling) (box : Box) :
  returns (PIL.core_resize img sz m box)
    (ok_and (fun img' => mode img' = mode img /\ size img' = sz)).
Proof.
  unfold PIL.core_resize. destruct box as [[[l u] r] d].
  repeat (match goal with |- context [if ?b then _ else _] => destruct b end;
          [by apply returns_raise_err|]).
  apply returns_ret. simpl. auto.
Qed.

Lemma Image_resize_returns (img : Image) (sz : Z * Z) (m : Resampling) (box : Box) :
  returns (PIL.Image_resize img sz m box)
    (ok_and (fun img' => mode img' = mode img /\ size img' = sz)).
Proof.
  assert (Halpha : forall m' m'',
    returns (im ← PIL.Image_convert img m';
             im ← PIL.core_resize im sz m'' box;
             PIL.Image_convert im (mode img))
      (ok_and (fun img' => mode img' = mode img /\ size img' = sz))).
  { intros m' m''.
    eapply returns_bind; [apply Image_convert_returns| |auto].
    intros im [Hm1 Hs1].
    eapply returns_bind; [apply core_resize_returns| |auto].
    intros im2 [Hm2 Hs2].
    eapply returns_weaken; [apply Image_convert_returns|].
    intros [?|?]; simpl; [|done]. intros [? ?]. split; congruence. }
  pose proof (core_resize_returns img sz) as Hcore.
  unfold PIL.Image_resize. destruct box as [[[l u] r] d].
  destruct (bool_decide (size img = sz)) eqn:Hsz; simpl.
  - apply bool_decide_eq_true in Hsz.
    destruct (_ && _).
    + apply returns_ret. simpl. auto.
    + match goal with |- context [if ?b then _ else _] => destruct b end;
        [apply Halpha | apply (Hcore _ (l, u, r, d))].
  - match goal with |- context [if ?b then _ else _] => destruct b end;
      [apply Halpha | apply (Hcore _ (l, u, r, d))].
Qed.

Lemma ImageOps_fit_returns (img : Image) (sz : Z * Z) (m : Resampling)
    (bleed : Q) (centering : Q * Q) :
  returns (PIL.ImageOps_fit img sz m bleed centering)
    (ok_and (fun img' => mode img' = mode img /\ size img' = sz)).
Proof.
  unfold PIL.ImageOps_fit. cbv zeta.
  match goal with |- context [if Qeq_bool ?a ?b then _ else _] =>
    destruct (Qeq_bool a b) end; [by apply returns_raise_err|].
  destruct (snd sz =? 0)%Z; [by apply returns_raise_err|].
  eapply returns_bind with (P := ok_and (fun _ => True)).
  - repeat (match goal with |- context [if ?b then _ else _] => destruct b end);
      try (by apply returns_ret); by apply returns_raise_err.
  - intros crop _. apply Image_resize_returns.
  - auto.
Qed.

Lemma Image_open_run (p : path) (st : state) :
  exists r,
    Image_open p st = (st, r) /\ ok_and (fun _ => True) r /\
    forall st', fs st' !! p = fs st !! p -> Image_open p st' = (st', r).
Proof.
  unfold Image_open.
  destruct (fs st !! p) as [[b|es]|] eqn:E.
  - destruct (decode b) as [e|img] eqn:D; simpl.
    + eexists. split; [reflexivity|]. split; [done|].
      intros st' ->. by rewrite D.
    + eexists. split; [reflexivity|]. split; [done|].
      intros st' ->. by rewrite D.
  - eexists. split; [reflexivity|]. split; [done|]. by intros st' ->.
  - eexists. split; [reflexivity|]. split; [done|]. by intros st' ->.
Qed.

Lemma render_run (p : path) (st : state) :
  exists r,
    render p st = (st, r) /\
    ok_and (fun img => mode img = "RGB" /\ size img = (400, 400)%Z) r /\
    forall st', fs st' !! p = fs st !! p -> render p st' = (st', r).
Proof.
  destruct (Image_open_run p st) as (r0 & Hopen & Hr0 & Hframe).
  unfold render. destruct r0 as [img|e].
  - assert (Hrest : returns
        (img' ← normalize_mode img;
         PIL.ImageOps_fit img' (400, 400)%Z LANCZOS 0%Q (1 # 2, 1 # 2)%Q)
        (ok_and (fun img => mode img = "RGB" /\ size img = (400, 400)%Z))).
    { eapply returns_bind; [apply normalize_mode_returns| |auto].
      intros img' [Hm Hs].
      eapply returns_weaken; [apply ImageOps_fit_returns|].
      intros [?|?]; simpl; [|done]. intros [? ?]. split; congruence. }
    destruct Hrest as (r & Hr & Hrun).
    exists r. split; [by rewrite bind_run, Hopen, Hrun|]. split; [done|].
    intros st' Hst'. by rewrite bind_run, (Hframe st' Hst'), Hrun.
  - exists (Raise e). split; [by rewrite bind_run, Hopen|]. split; [done|].
    intros st' Hst'. by rewrite bind_run, (Hframe st' Hst').
Qed.


Lemma set_fs_same (st : state) : set_fs st (fs st) = st.
Proof. by destruct st. Qed.

Lemma print_run (line : string) (st : state) :
  print line st =
    match stdout_rejects line with
    | Some e => (st, Raise (Exception e))
    | None => (mkState (fs st) (stdout st ++ [line]), Ok tt)
    end.
Proof. reflexivity. Qed.

(** Saving is the planned effect with the planned result. *)
Lemma Image_save_run (img : Image) (out : path) (c : option bytes) (st : state) :
  Image_save img out 85 true c st =
    (set_fs st (apply_effect (save_plan img out c (fs st)).1 out (fs st)),
     (save_plan img out c (fs st)).2).
Proof.
  unfold Image_save, save_plan, apply_effect, written.
  destruct (fs st !! out) as [[b|es]|]; destruct (fs st !! parent out) as [[b'|es']|];
    simpl; rewrite ?set_fs_same; try reflexivity;
    destruct (write_fault out (jpeg_encode 85 true img));
    simpl; rewrite ?set_fs_same; try reflexivity;
    destruct (bool_decide (mode img ∈ jpeg_rawmodes)); simpl; try reflexivity;
    destruct c; reflexivity.
Qed.

(** A save that returns has written the whole encoding, at a path that
    held no directory, inside a directory. *)
Lemma save_plan_Ok (img : Image) (out : path) (c : option bytes)
    (t : gmap (list string) node) (eff : effect) :
  save_plan img out c t = (eff, Ok tt) ->
  eff = Saved (jpeg_encode 85 true img) /\ c = None /\
  mode img ∈ jpeg_rawmodes /\
  write_fault out (jpeg_encode 85 true img) = WriteOk /\
  (forall es, t !! out <> Some (Dir es)) /\
  exists es, t !! parent out = Some (Dir es).
Proof.
  unfold save_plan.
  destruct (t !! out) as [[b|es]|]; destruct (t !! parent out) as [[b'|es']|];
    try discriminate;
    destruct (write_fault out (jpeg_encode 85 true img)); try discriminate;
    case_bool_decide; try discriminate;
    destruct c; try discriminate;
    intros [= <-]; repeat split; eauto; discriminate.
Qed.

Lemma save_plan_Ok_intro (img : Image) (out : path)
    (t : gmap (list string) node) :
  is_dir (t !! out) = false ->
  is_dir (t !! parent out) = true ->
  write_fault out (jpeg_encode 85 true img) = WriteOk ->
  mode img ∈ jpeg_rawmodes ->
  save_plan img out None t = (Saved (jpeg_encode 85 true img), Ok tt).
Proof.
  intros Hout Hpar Hw Hm. unfold save_plan. rewrite Hw.
  rewrite bool_decide_true by done.
  destruct (t !! out) as [[b|es]|]; destruct (t !! parent out) as [[b'|es']|];
    done.
Qed.

Lemma save_plan_view (img : Image) (out : path) (c : option bytes)
    (t t' : gmap (list string) node) :
  is_dir (t' !! out) = is_dir (t !! out) ->
  is_dir (t' !! parent out) = is_dir (t !! parent out) ->
  save_plan img out c t' = save_plan img out c t.
Proof.
  unfold save_plan.
  destruct (t !! out) as [[?|?]|], (t' !! out) as [[?|?]|]; try discriminate;
    destruct (t !! parent out) as [[?|?]|], (t' !! parent out) as [[?|?]|];
    try discriminate; reflexivity.
Qed.

(** A save writes only where no directory is, and puts a file only into
    a directory. *)
Lemma save_plan_touches_no_dir (img : Image) (out : path) (c : option bytes)
    (t : gmap (list string) node) :
  match (save_plan img out c t).1 with
  | Untouched => True
  | Truncated _ => is_dir (t !! out) = false
  | Saved _ => is_dir (t !! out) = false /\ is_dir (t !! parent out) = true
  end.
Proof.
  unfold save_plan.
  destruct (t !! out) as [[?|?]|]; destruct (t !! parent out) as [[?|?]|];
    try done;
    destruct (write_fault out (jpeg_encode 85 true img)); try done;
    case_bool_decide; try done; destruct c; done.
Qed.

(** A save never raises [KeyboardInterrupt] of its own. *)
Lemma save_plan_no_interrupt (img : Image) (out : path)
    (t : gmap (list string) node) :
  (save_plan img out None t).2 <> Raise KeyboardInterrupt.
Proof.
  unfold save_plan.
  destruct (t !! out) as [[?|?]|]; destruct (t !! parent out) as [[?|?]|];
    try done;
    destruct (write_fault out (jpeg_encode 85 true img)); try done;
    case_bool_decide; done.
Qed.

Lemma process_image_render (od : path) (i total : nat) (p : path) (st : state) :
  process_image od i total p st =
    (interrupt_point (sigint (name p)) AtOpen;;
     img ← render p;
     Image_save img (output_path_for od p) 85 true (in_save (sigint (name p)));;
     interrupt_point (sigint (name p)) AfterSave;;
     print (resized_line i total p)) st.
Proof.
  unfold process_image, render, resized_line. cbv zeta.
  rewrite !bind_run.
  destruct (interrupt_point (sigint (name p)) AtOpen st) as [st0 [[]|e]];
    [|reflexivity].
  rewrite !bind_run. destruct (Image_open p st0) as [st1 [img|e]]; [|reflexivity].
  rewrite !bind_run. destruct (normalize_mode img st1) as [st2 [img2|e]]; reflexivity.
Qed.

(** The body of the [try] is its plan, made on the current file system:
    the planned effect, the progress line when it returns, and the
    planned result. *)
Lemma process_image_run (od : path) (i total : nat) (p : path) (st : state) :
  process_image od i total p st =
    (mkState
       (apply_effect (attempt od i total p (fs st)).1 (output_path_for od p) (fs st))
       (stdout st ++ match (attempt od i total p (fs st)).2 with
                     | Ok _ => [resized_line i total p]
                     | Raise _ => []
                     end),
     (attempt od i total p (fs st)).2).
Proof.
  rewrite process_image_render. unfold attempt.
  destruct (render_run p st) as (r & Hrun & Hr & Hframe).
  rewrite (Hframe (mkState (fs st) [])) by reflexivity. cbn [snd].
  assert (Hst : forall t, t = fs st -> mkState t (stdout st ++ []) = st)
    by (intros t ->; rewrite app_nil_r; by destruct st).
  rewrite bind_run.
  destruct (sigint (name p)) as [[|partial|]|] eqn:Hs; cbn [interrupt_point];
    try (simpl; by rewrite Hst).
  all: unfold ret at 1; rewrite bind_run, Hrun;
    destruct r as [img|e]; [|simpl; by rewrite Hst];
    rewrite bind_run, Image_save_run; cbn [in_save];
    destruct (save_plan img (output_path_for od p) _ (fs st)) as [eff [[]|e]];
    cbn [fst snd]; unfold set_fs; [|by rewrite app_nil_r].
  - rewrite bind_run. unfold ret at 1. rewrite print_run.
    destruct (stdout_rejects (resized_line i total p)); simpl; [|reflexivity].
    by rewrite app_nil_r.
  - rewrite bind_run. simpl. by rewrite app_nil_r.
  - rewrite bind_run. unfold ret at 1. rewrite print_run.
    destruct (stdout_rejects (resized_line i total p)); simpl; [|reflexivity].
    by rewrite app_nil_r.
Qed.

(** One iteration of the loop is its planned step, carried out. *)
Lemma loop_body_run (od : path) (total i : nat) (p : path) (st : state) :
  loop_body od total i p st =
    run_step (plan_step od i total p (fs st)) (output_path_for od p) st.
Proof.
  unfold loop_body, try_except_Exception, run_step, plan_step.
  rewrite process_image_run.
  destruct (attempt od i total p (fs st)) as [eff [[]|[|e]]]; cbn [fst snd].
  - reflexivity.
  - by rewrite app_nil_r.
  - rewrite app_nil_r. destruct (sigint (name p)); [reflexivity|].
    rewrite print_run.
    by destruct (stdout_rejects _).
Qed.

(** An attempt that returns has rendered the file and saved the whole
    encoding of an ["RGB"] image of size 400x400. *)
Lemma attempt_Ok (od : path) (i total : nat) (p : path)
    (t : gmap (list string) node) (eff : effect) :
  attempt od i total p t = (eff, Ok tt) ->
  exists img,
    (render p (mkState t [])).2 = Ok img /\
    eff = Saved (jpeg_encode 85 true img) /\
    mode img = "RGB" /\ size img = (400, 400)%Z /\
    (forall es, t !! output_path_for od p <> Some (Dir es)) /\
    (exists es, t !! od = Some (Dir es)) /\
    stdout_rejects (resized_line i total p) = None.
Proof.
  unfold attempt.
  destruct (render_run p (mkState t [])) as (r & Hrun & Hr & _).
  rewrite Hrun. cbn [snd].
  assert (Hgo : forall c,
    match r with
    | Raise e => (Untouched, Raise e)
    | Ok img =>
        match save_plan img (output_path_for od p) c t with
        | (eff, Raise e) => (eff, Raise e)
        | (eff, Ok _) =>
            match stdout_rejects (resized_line i total p) with
            | Some e => (eff, Raise (Exception e))
            | None => (eff, Ok tt)
            end
        end
    end = (eff, Ok tt) ->
    exists img,
      r = Ok img /\ eff = Saved (jpeg_encode 85 true img) /\
      mode img = "RGB" /\ size img = (400, 400)%Z /\
      (forall es, t !! output_path_for od p <> Some (Dir es)) /\
      (exists es, t !! od = Some (Dir es)) /\
      stdout_rejects (resized_line i total p) = None).
  { intros c. destruct r as [img|e]; [|discriminate].
    destruct (save_plan img (output_path_for od p) c t) as [eff' [[]|e]] eqn:E;
      [|discriminate].
    destruct (stdout_rejects (resized_line i total p)) eqn:Hp; [discriminate|].
    intros [= <-]. apply save_plan_Ok in E as (-> & _ & _ & _ & Hnd & Hpar).
    unfold output_path_for in Hpar. rewrite parent_joinpath in Hpar.
    destruct Hr. exists img. repeat split; auto. }
  destruct (sigint (name p)) as [[|partial|]|]; [discriminate|apply Hgo| |apply Hgo].
  destruct r as [img|e]; [|discriminate].
  by destruct (save_plan img (output_path_for od p) _ t) as [eff' [[]|e]].
Qed.

(** The plan of an attempt depends on the file system only through the
    input file, and through where the directories are. *)
Lemma attempt_view (od : path) (i total : nat) (p : path)
    (t t' : gmap (list string) node) :
  t' !! p = t !! p ->
  (forall q, is_dir (t' !! q) = is_dir (t !! q)) ->
  attempt od i total p t' = attempt od i total p t.
Proof.
  intros Hp Hdir. unfold attempt.
  destruct (render_run p (mkState t [])) as (r & Hrun & _ & Hframe).
  rewrite (Hframe (mkState t' [])) by done. rewrite Hrun. cbn [snd].
  destruct r as [img|e]; [|done].
  by rewrite (save_plan_view img _ _ t t').
Qed.

Lemma plan_step_view (od : path) (i total : nat) (p : path)
    (t t' : gmap (list string) node) :
  t' !! p = t !! p ->
  (forall q, is_dir (t' !! q) = is_dir (t !! q)) ->
  plan_step od i total p t' = plan_step od i total p t.
Proof. intros Hp Hdir. unfold plan_step. by rewrite (attempt_view _ _ _ _ t t'). Qed.

Lemma attempt_touches_no_dir (od : path) (i total : nat) (p : path)
    (t : gmap (list string) node) :
  match (attempt od i total p t).1 with
  | Untouched => True
  | Truncated _ => is_dir (t !! output_path_for od p) = false
  | Saved _ =>
      is_dir (t !! output_path_for od p) = false /\ is_dir (t !! od) = true
  end.
Proof.
  assert (Hsave : forall img c,
    match (save_plan img (output_path_for od p) c t).1 with
    | Untouched => True
    | Truncated _ => is_dir (t !! output_path_for od p) = false
    | Saved _ =>
        is_dir (t !! output_path_for od p) = false /\ is_dir (t !! od) = true
    end).
  { intros img c.
    pose proof (save_plan_touches_no_dir img (output_path_for od p) c t) as H.
    replace (parent (output_path_for od p)) with od in H
      by (unfold output_path_for; by rewrite parent_joinpath).
    exact H. }
  unfold attempt.
  destruct (sigint (name p)) as [[|partial|]|]; [done|..];
    (destruct ((render p (mkState t [])).2) as [img|e]; [|done]);
    match goal with |- context [save_plan img ?o ?c t] =>
      specialize (Hsave img c);
      destruct (save_plan img o c t) as [eff [[]|e]] end;
    cbn [fst] in *; try done;
    by destruct (stdout_rejects _).
Qed.

Lemma plan_step_effect (od : path) (i total : nat) (p : path)
    (t : gmap (list string) node) :
  (plan_step od i total p t).1 = (attempt od i total p t).1.
Proof.
  unfold plan_step.
  destruct (attempt od i total p t) as [eff [[]|[|e]]]; try done.
  cbn [fst]. destruct (sigint (name p)); [done|].
  by destruct (stdout_rejects _).
Qed.

Lemma plan_step_touches_no_dir (od : path) (i total : nat) (p : path)
    (t : gmap (list string) node) :
  match (plan_step od i total p t).1 with
  | Untouched => True
  | Truncated _ => is_dir (t !! output_path_for od p) = false
  | Saved _ =>
      is_dir (t !! output_path_for od p) = false /\ is_dir (t !! od) = true
  end.
Proof. rewrite plan_step_effect. apply attempt_touches_no_dir. Qed.

(** A pending Ctrl-C always leaves the iteration as
    [KeyboardInterrupt]. *)
Lemma plan_step_interrupted (od : path) (i total : nat) (p : path)
    (t : gmap (list string) node) (m : moment) :
  sigint (name p) = Some m ->
  (plan_step od i total p t).2 = Leaves KeyboardInterrupt.
Proof.
  intros Hs. unfold plan_step, attempt. rewrite Hs.
  destruct m as [|partial|]; [done|..];
    (destruct ((render p (mkState t [])).2) as [img|[|e]]; [|done..]);
    cbn [in_save].
  - unfold save_plan.
    destruct (t !! output_path_for od p) as [[?|?]|];
      destruct (t !! parent (output_path_for od p)) as [[?|?]|]; try done;
      destruct (write_fault _ _); try done; case_bool_decide; done.
  - pose proof (save_plan_no_interrupt img (output_path_for od p) t) as Hn.
    destruct (save_plan img (output_path_for od p) None t) as [eff [[]|[|e]]];
      done.
Qed.

(** Without a pending Ctrl-C no iteration raises [KeyboardInterrupt]. *)
Lemma attempt_no_interrupt (od : path) (i total : nat) (p : path)
    (t : gmap (list string) node) :
  sigint (name p) = None ->
  (attempt od i total p t).2 <> Raise KeyboardInterrupt.
Proof.
  intros Hs. unfold attempt. rewrite Hs. cbn [in_save].
  destruct (render_run p (mkState t [])) as (r & Hrun & Hr & _).
  rewrite Hrun. cbn [snd]. destruct r as [img|[|e]]; try done.
  pose proof (save_plan_no_interrupt img (output_path_for od p) t) as Hn.
  destruct (save_plan img (output_path_for od p) None t) as [eff [[]|[|e]]];
    try done.
  by destruct (stdout_rejects _).
Qed.

End Render.

(** ** What a processed file leaves behind *)

Section Output.
Context `{W : World}.

Lemma lookup_written_out (out : path) (c : bytes) (es : list string)
    (t : gmap (list string) node) :
  t !! parent out = Some (Dir es) ->
  written out c t !! out = Some (File c).
Proof. intros H. unfold written. rewrite H. apply lookup_insert_eq. Qed.

Lemma parent_neq (d : path) (nm : string) : joinpath d nm <> d.
Proof.
  unfold joinpath. intros H. apply (f_equal length) in H.
  rewrite length_app in H. simpl in H. lia.
Qed.

Lemma lookup_written_parent (d : path) (nm : string) (c : bytes)
    (es : list string) (t : gmap (list string) node) :
  t !! d = Some (Dir es) ->
  written (joinpath d nm) c t !! d = Some (Dir (add_entry nm es)).
Proof.
  intros H. unfold written. rewrite parent_joinpath, H, name_joinpath.
  rewrite lookup_insert_ne by apply parent_neq. apply lookup_insert_eq.
Qed.

Lemma elem_of_add_entry (nm : string) (es : list string) : nm ∈ add_entry nm es.
Proof.
  unfold add_entry. case_bool_decide; [done|].
  apply elem_of_app. right. by apply list_elem_of_singleton.
Qed.

(** C2.  When the body of the [try] completes for an input, the
    destination directory holds, under the name [<stem>.jpg] (the input's
    name with its suffix, whatever it was, replaced), exactly what the JPEG
    encoder produced at quality 85 with optimisation for an image of mode
    ["RGB"] and size 400x400. *)
Theorem processed_file_is_RGB_JPEG_400x400_named_stem_jpg
    (od : path) (i total : nat) (p : path) (st st' : state) :
  process_image od i total p st = (st', Ok tt) ->
  exists img es,
    mode img = "RGB" /\ size img = (400, 400)%Z /\
    fs st' !! joinpath od (stem p ++ ".jpg")
      = Some (File (jpeg_encode 85 true img)) /\
    fs st' !! od = Some (Dir es) /\ (stem p ++ ".jpg") ∈ es /\
    name p = stem p ++ suffix p.
Proof.
  rewrite process_image_run.
  destruct (attempt od i total p (fs st)) as [eff r] eqn:E. cbn [fst snd].
  intros [= <- ->].
  apply attempt_Ok in E as (img & _ & -> & Hm & Hs & _ & (es & Hod) & _).
  exists img, (add_entry (stem p ++ ".jpg") es).
  split; [done|]. split; [done|]. cbn [fs apply_effect].
  unfold output_path_for. split; [|split; [|split]].
  - eapply lookup_written_out. by rewrite parent_joinpath.
  - by apply lookup_written_parent.
  - apply elem_of_add_entry.
  - symmetry. apply stem_suffix.
Qed.

End Output.

Lemma processed_file_is_RGB_JPEG_400x400_named_stem_jpg_witness :
  let W := Demo.demo_world in
  let od := ["proj"; "assets"; "cocktails-resized"] in
  let p := ["proj"; "assets"; "cocktails"; "Negroni.PNG"] in
  let st := (mkdir_exist_ok od (Demo.start [("Negroni.PNG", Demo.rgb_1x1)])).1 in
  exists img es,
    mode img = "RGB" /\ size img = (400, 400)%Z /\
    fs (process_image od 1 1 p st).1 !! (od ++ ["Negroni.jpg"])%list
      = Some (File (jpeg_encode 85 true img)) /\
    fs (process_image od 1 1 p st).1 !! od = Some (Dir es) /\
    "Negroni.jpg" ∈ es /\ name p = "Negroni" ++ ".PNG".
Proof.
  intros W od p st.
  apply (processed_file_is_RGB_JPEG_400x400_named_stem_jpg (W := W)
           od 1 1 p st (process_image od 1 1 p st).1).
  vm_compute. reflexivity.
Defined.

(** ** Setting up: [mkdir] and [iterdir] *)

Section Setup.
Context `{W : World}.

Lemma mkdir_exist_ok_cases (d : path) (st : state) :
  (exists es, fs st !! d = Some (Dir es) /\ mkdir_exist_ok d st = (st, Ok tt))
  \/ (exists es, fs st !! d = None /\ fs st !! parent d = Some (Dir es) /\
        mkdir_exist_ok d st =
          (set_fs st (<[d := Dir []]>
                        (<[parent d := Dir (add_entry (name d) es)]> (fs st))),
           Ok tt))
  \/ (exists e, mkdir_exist_ok d st = (st, Raise (Exception e)) /\
        forall es, fs st !! d <> Some (Dir es)).
Proof.
  unfold mkdir_exist_ok.
  destruct (fs st !! d) as [[b|es]|] eqn:E.
  - right. right. eexists. split; [reflexivity|]. discriminate.
  - left. eauto.
  - destruct (fs st !! parent d) as [[b|es]|] eqn:E'.
    + right. right. eexists. split; [reflexivity|]. discriminate.
    + right. left. eauto.
    + right. right. eexists. split; [reflexivity|]. discriminate.
Qed.

Lemma iterdir_run (d : path) (st : state) :
  iterdir d st =
    match fs st !! d with
    | Some (Dir es) => (st, Ok (map (joinpath d) es))
    | Some (File _) =>
        (st, Raise (Exception (PyErr "NotADirectoryError"
               ("[Errno 20] Not a directory: '" ++ path_str d ++ "'"))))
    | None =>
        (st, Raise (Exception (PyErr "FileNotFoundError"
               ("[Errno 2] No such file or directory: '" ++ path_str d ++ "'"))))
    end.
Proof. unfold iterdir. by destruct (fs st !! d) as [[b|es]|]. Qed.

(** Printing never touches the file system, and only ever adds to the
    output. *)
Lemma print_fs (line : string) (st : state) : fs (print line st).1 = fs st.
Proof. rewrite print_run. by destruct (stdout_rejects line). Qed.

Lemma print_extends (line : string) (st : state) :
  exists tail, stdout (print line st).1 = (stdout st ++ tail)%list.
Proof.
  rewrite print_run. destruct (stdout_rejects line).
  - exists []. by rewrite app_nil_r.
  - by exists [line].
Qed.

Lemma print_all_cons (line : string) (lines : list string) (st : state) :
  print_all (line :: lines) st =
    match stdout_rejects line with
    | Some e => (st, Raise (Exception e))
    | None => print_all lines (mkState (fs st) (stdout st ++ [line]))
    end.
Proof.
  cbn [print_all]. rewrite bind_run, print_run.
  by destruct (stdout_rejects line).
Qed.

Lemma print_all_fs (lines : list string) (st : state) :
  fs (print_all lines st).1 = fs st.
Proof.
  revert st. induction lines as [|line lines IH]; intros st; [done|].
  rewrite print_all_cons. destruct (stdout_rejects line); [done|].
  by rewrite IH.
Qed.

Lemma print_all_extends (lines : list string) (st : state) :
  exists tail, stdout (print_all lines st).1 = (stdout st ++ tail)%list.
Proof.
  revert st. induction lines as [|line lines IH]; intros st.
  - exists []. simpl. by rewrite app_nil_r.
  - rewrite print_all_cons. destruct (stdout_rejects line).
    + exists []. simpl. by rewrite app_nil_r.
    + destruct (IH (mkState (fs st) (stdout st ++ [line]))) as [tail Ht].
      exists (line :: tail). rewrite Ht. simpl. by rewrite <- app_assoc.
Qed.

(** Lines that standard output accepts are all printed. *)
Lemma print_all_accepted (lines : list string) (st : state) :
  (forall line, line ∈ lines -> stdout_rejects line = None) ->
  print_all lines st = (mkState (fs st) (stdout st ++ lines), Ok tt).
Proof.
  revert st. induction lines as [|line lines IH]; intros st H.
  - simpl. rewrite app_nil_r. by destruct st.
  - rewrite print_all_cons, (H line) by left.
    rewrite IH by (intros l Hl; apply H; by right).
    simpl. by rewrite <- app_assoc.
Qed.

(** [print_all] raises nothing but an [Exception]. *)
Lemma print_all_result (lines : list string) (st : state) :
  (print_all lines st).2 <> Raise KeyboardInterrupt.
Proof.
  revert st. induction lines as [|line lines IH]; intros st; [done|].
  rewrite print_all_cons. destruct (stdout_rejects line); [done|]. apply IH.
Qed.

(** [resize_images] after a successful [mkdir], on a source directory
    that lists [es]: the count line, the loop, the banner. *)
Lemma resize_images_run (root : path) (st st0 : state) (es : list string) :
  mkdir_exist_ok (output_dir root) st = (st0, Ok tt) ->
  fs st0 !! cocktails_dir root = Some (Dir es) ->
  let files := image_files_of (cocktails_dir root) es in
  resize_images root st =
    match stdout_rejects (found_line (length files)) with
    | Some e => (st0, Raise (Exception e))
    | None =>
        match for_enumerate (loop_body (output_dir root) (length files)) 1 files
                (mkState (fs st0) (stdout st0 ++ [found_line (length files)])) with
        | (st1, Ok _) => print_all (banner root) st1
        | (st1, Raise e) => (st1, Raise e)
        end
    end.
Proof.
  intros Hmk Hsrc files. unfold resize_images.
  rewrite bind_run, Hmk, bind_run, iterdir_run, Hsrc.
  fold (image_files_of (cocktails_dir root) es). fold files.
  rewrite bind_run, print_run. fold (found_line (length files)).
  destruct (stdout_rejects (found_line (length files))); [reflexivity|].
  rewrite bind_run.
  destruct (for_enumerate _ _ _ _) as [st1 [[]|e]]; [|reflexivity].
  unfold banner. rewrite !print_all_cons, !bind_run, !print_run.
  destruct (stdout_rejects (nl ++ _)); [reflexivity|].
  rewrite bind_run, print_run.
  destruct (stdout_rejects ("Resized images saved to: " ++ _)); [reflexivity|].
  rewrite print_run.
  destruct (stdout_rejects _); reflexivity.
Qed.

Lemma for_enumerate_cons {A} (body : nat -> A -> M unit) (i : nat) (x : A)
    (xs : list A) (st : state) :
  for_enumerate body i (x :: xs) st =
    match body i x st with
    | (st', Ok _) => for_enumerate body (S i) xs st'
    | (st', Raise e) => (st', Raise e)
    end.
Proof. reflexivity. Qed.

Lemma cocktails_dir_neq_output_dir (root : path) :
  cocktails_dir root <> output_dir root.
Proof.
  unfold cocktails_dir, output_dir, joinpath. intros H.
  apply app_inv_head in H. discriminate.
Qed.

Lemma parent_output_dir (root : path) :
  parent (output_dir root) = joinpath root "assets".
Proof. unfold output_dir. apply parent_joinpath. Qed.

Lemma cocktails_dir_neq_assets (root : path) :
  cocktails_dir root <> parent (output_dir root).
Proof. rewrite parent_output_dir. apply parent_neq. Qed.

Lemma mkdir_exist_ok_frame (d : path) (st st0 : state) (r : result unit) :
  mkdir_exist_ok d st = (st0, r) ->
  stdout st0 = stdout st /\
  forall q, q <> d -> q <> parent d -> fs st0 !! q = fs st !! q.
Proof.
  intros H.
  destruct (mkdir_exist_ok_cases d st)
    as [(es & _ & E) | [(es & _ & _ & E) | (e & E & _)]];
    rewrite E in H; injection H as <- <-; split; try done.
  intros q Hq Hq'. simpl. by rewrite !lookup_insert_ne.
Qed.

Lemma mkdir_keeps_source (root : path) (st st0 : state) (r : result unit) :
  mkdir_exist_ok (output_dir root) st = (st0, r) ->
  fs st0 !! cocktails_dir root = fs st !! cocktails_dir root.
Proof.
  intros H. apply mkdir_exist_ok_frame in H as [_ H]. apply H.
  - apply cocktails_dir_neq_output_dir.
  - apply cocktails_dir_neq_assets.
Qed.

Lemma resize_images_without_source (root : path) (st : state) :
  fs st !! cocktails_dir root = None ->
  exists st' e, resize_images root st = (st', Raise (Exception e)).
Proof.
  intros Hsrc. unfold resize_images. rewrite bind_run.
  destruct (mkdir_exist_ok (output_dir root) st) as [st0 [[]|e]] eqn:Hmk.
  - pose proof (mkdir_keeps_source _ _ _ _ Hmk) as Hsrc0. rewrite Hsrc in Hsrc0.
    rewrite bind_run, iterdir_run, Hsrc0. eauto.
  - destruct (mkdir_exist_ok_cases (output_dir root) st)
      as [(es & _ & E) | [(es & _ & _ & E) | (e' & E & _)]];
      rewrite E in Hmk; try discriminate.
    injection Hmk as <- <-. eauto.
Qed.

End Setup.

(** ** Enumeration *)

Section Enumeration.
Context `{W : World}.

Lemma image_files_of_names (src : path) (es : list string) :
  image_files_of src es =
    map (joinpath src)
      (List.filter
         (fun nm => bool_decide (PyStr.lower (suffix_of nm) ∈ image_extensions))
         es).
Proof.
  unfold image_files_of. induction es as [|nm es IH]; [done|]. simpl.
  unfold is_image_file at 1, suffix. rewrite name_joinpath.
  destruct (bool_decide _); simpl; by rewrite IH.
Qed.

Lemma elem_of_image_files_of (src : path) (es : list string) (f : path) :
  f ∈ image_files_of src es <->
  exists nm, nm ∈ es /\ f = joinpath src nm /\
             PyStr.lower (suffix_of nm) ∈ image_extensions.
Proof.
  rewrite image_files_of_names, list_elem_of_fmap. split.
  - intros (nm & -> & Hnm). apply list_elem_of_In, filter_In in Hnm as [Hin Hb].
    exists nm. split; [by apply list_elem_of_In|]. split; [done|].
    by apply bool_decide_eq_true in Hb.
  - intros (nm & Hin & -> & Hs). exists nm. split; [done|].
    apply list_elem_of_In, filter_In. split; [by apply list_elem_of_In|].
    by apply bool_decide_eq_true.
Qed.

(** C6.  Once the destination directory is in place, [resize_images]
    prints the count line (and ends there if standard output refuses it),
    then its loop ranges over exactly the direct entries of the source
    directory whose suffix, lower-cased, is one of .jpg, .jpeg, .png,
    .webp, in enumeration order, then come the prints of the banner; two
    names that differ only in case are accepted or rejected together; no
    other entry reaches the loop. *)
Theorem enumerated_inputs_are_the_entries_with_an_image_suffix
    (root : path) (st st0 : state) (es : list string) :
  mkdir_exist_ok (output_dir root) st = (st0, Ok tt) ->
  fs st !! cocktails_dir root = Some (Dir es) ->
  let accepted nm :=
    bool_decide (PyStr.lower (suffix_of nm) ∈ [".jpg"; ".jpeg"; ".png"; ".webp"]) in
  let files := map (joinpath (cocktails_dir root)) (List.filter accepted es) in
  resize_images root st =
    match stdout_rejects (found_line (length files)) with
    | Some e => (mkState (fs st0) (stdout st), Raise (Exception e))
    | None =>
        match for_enumerate (loop_body (output_dir root) (length files)) 1 files
                (mkState (fs st0) (stdout st ++ [found_line (length files)])) with
        | (st1, Ok _) => print_all (banner root) st1
        | (st1, Raise e) => (st1, Raise e)
        end
    end /\
  (forall f, f ∈ files <->
     exists nm, nm ∈ es /\ f = joinpath (cocktails_dir root) nm /\
                PyStr.lower (suffix_of nm) ∈ [".jpg"; ".jpeg"; ".png"; ".webp"]) /\
  (forall nm nm', PyStr.lower nm = PyStr.lower nm' -> accepted nm = accepted nm').
Proof.
  intros Hmk Hsrc accepted files.
  pose proof (mkdir_keeps_source _ _ _ _ Hmk) as Hsrc0. rewrite Hsrc in Hsrc0.
  pose proof (mkdir_exist_ok_frame _ _ _ _ Hmk) as [Hout _].
  assert (Hfiles : files = image_files_of (cocktails_dir root) es)
    by (symmetry; apply image_files_of_names).
  split; [|split].
  - rewrite (resize_images_run root st st0 es Hmk Hsrc0), <- Hfiles, <- Hout.
    destruct (stdout_rejects _); [by destruct st0|reflexivity].
  - intros f. rewrite Hfiles. apply elem_of_image_files_of.
  - intros nm nm' Hcase. unfold accepted.
    by rewrite <- !suffix_of_lower, Hcase.
Qed.

End Enumeration.

Lemma enumerated_inputs_are_the_entries_with_an_image_suffix_witness :
  let W := Demo.demo_world in
  let entries := ["a.png"; "B.JPeG"; "notes.txt"; ".png"; "c.webp.bak"] in
  (exists nm,
     nm ∈ entries /\
     ["proj"; "assets"; "cocktails"; "B.JPeG"]
       = joinpath ["proj"; "assets"; "cocktails"] nm /\
     PyStr.lower (suffix_of nm) ∈ [".jpg"; ".jpeg"; ".png"; ".webp"]) /\
  image_files_of ["proj"; "assets"; "cocktails"] entries
    = [["proj"; "assets"; "cocktails"; "a.png"];
       ["proj"; "assets"; "cocktails"; "B.JPeG"]].
Proof.
  intros W entries.
  pose (st := Demo.start [("a.png", Demo.rgb_1x1); ("B.JPeG", Demo.garbage);
                          ("notes.txt", Demo.garbage); (".png", Demo.rgb_1x1);
                          ("c.webp.bak", Demo.rgb_1x1)]).
  split; [|vm_compute; reflexivity].
  apply (proj1 (proj2
    (enumerated_inputs_are_the_entries_with_an_image_suffix (W := W)
       ["proj"] st (mkdir_exist_ok (output_dir ["proj"]) st).1 entries
       ltac:(vm_compute; reflexivity) ltac:(vm_compute; reflexivity)))).
  vm_compute. repeat constructor.
Defined.
(** ** The loop, path by path *)

Section Cells.
Context `{W : World}.

Lemma cell_apply_is_dir (c : cellfn) (x : option node) :
  is_dir (cell_apply c x) = is_dir x.
Proof. destruct c, x as [[b|es]|]; reflexivity. Qed.

Lemma cells_apply_is_dir (cs : list cellfn) (x : option node) :
  is_dir (cells_apply cs x) = is_dir x.
Proof.
  unfold cells_apply. revert x.
  induction cs as [|c cs IH]; intros x; simpl; [done|].
  by rewrite IH, cell_apply_is_dir.
Qed.

Lemma is_dir_true (x : option node) :
  is_dir x = true <-> exists es, x = Some (Dir es).
Proof.
  destruct x as [[b|es]|]; simpl; split; try done; try (intros [? ?]; done).
  eauto.
Qed.

Lemma is_dir_false (x : option node) :
  is_dir x = false <-> forall es, x <> Some (Dir es).
Proof.
  destruct x as [[b|es]|]; simpl; split; try done.
  intros H. by destruct (H es).
Qed.

Lemma written_cell (out : path) (c : bytes) (t : gmap (list string) node)
    (q : path) :
  is_dir (t !! parent out) = true ->
  is_dir (t !! out) = false ->
  written out c t !! q =
    cell_apply (if decide (q = out) then CPut c
                else if decide (q = parent out) then CList (name out)
                else CKeep) (t !! q).
Proof.
  intros Hpar Hout. apply is_dir_true in Hpar as [es Hpar].
  unfold written. rewrite Hpar.
  destruct (decide (q = out)) as [->|Hq].
  - rewrite lookup_insert_eq. by destruct (t !! out) as [[b|es']|].
  - rewrite lookup_insert_ne by done.
    destruct (decide (q = parent out)) as [->|Hq'].
    + by rewrite lookup_insert_eq, Hpar.
    + by rewrite lookup_insert_ne.
Qed.

Lemma failed_write_cell (out : path) (part : bytes)
    (t : gmap (list string) node) (q : path) :
  is_dir (t !! out) = false ->
  failed_write out part t !! q =
    cell_apply (if decide (q = out) then CTorn part else CKeep) (t !! q).
Proof.
  intros Hout. unfold failed_write.
  destruct (decide (q = out)) as [->|Hq].
  - destruct (t !! out) as [[b|es]|] eqn:E; try done.
    by rewrite lookup_insert_eq.
  - destruct (t !! out); [by rewrite lookup_insert_ne|done].
Qed.

(** One planned iteration, read at the path [q]. *)
Lemma plan_step_cell (od : path) (i total : nat) (p : path)
    (t : gmap (list string) node) (q : path) :
  apply_effect (plan_step od i total p t).1 (output_path_for od p) t !! q =
    cell_apply
      (effect_cell (plan_step od i total p t).1 od (output_path_for od p) q)
      (t !! q).
Proof.
  pose proof (plan_step_touches_no_dir od i total p t) as H.
  destruct ((plan_step od i total p t).1) as [|part|c]; simpl; try done.
  - by apply failed_write_cell.
  - destruct H as [Hout Hod].
    rewrite written_cell; unfold output_path_for in *;
      rewrite ?parent_joinpath, ?name_joinpath; done.
Qed.

Lemma cells_apply_cons (c : cellfn) (cs : list cellfn) (x : option node) :
  cells_apply (c :: cs) x = cells_apply cs (cell_apply c x).
Proof. reflexivity. Qed.

Lemma cells_apply_snoc (cs : list cellfn) (c : cellfn) (x : option node) :
  cells_apply (cs ++ [c]) x = cell_apply c (cells_apply cs x).
Proof. unfold cells_apply. by rewrite foldl_app. Qed.

Lemma cells_apply_app (cs1 cs2 : list cellfn) (x : option node) :
  cells_apply (cs1 ++ cs2) x = cells_apply cs2 (cells_apply cs1 x).
Proof. unfold cells_apply. apply foldl_app. Qed.

Lemma effect_cell_off (eff : effect) (od out q : path) :
  q <> out -> q <> od -> effect_cell eff od out q = CKeep.
Proof.
  intros H1 H2. unfold effect_cell.
  destruct eff; try done; repeat case_decide; done.
Qed.

Lemma loop_cells_cons (od : path) (total i : nat)
    (t0 : gmap (list string) node) (f : path) (files : list path) (q : path) :
  loop_cells od total i t0 (f :: files) q =
    effect_cell (plan_step od i total f t0).1 od (output_path_for od f) q ::
      match (plan_step od i total f t0).2 with
      | Printed _ => loop_cells od total (S i) t0 files q
      | Leaves _ => []
      end.
Proof. reflexivity. Qed.

Lemma loop_lines_cons (od : path) (total i : nat)
    (t0 : gmap (list string) node) (f : path) (files : list path) :
  loop_lines od total i t0 (f :: files) =
    match (plan_step od i total f t0).2 with
    | Printed line => line :: loop_lines od total (S i) t0 files
    | Leaves _ => []
    end.
Proof. reflexivity. Qed.

Lemma loop_result_cons (od : path) (total i : nat)
    (t0 : gmap (list string) node) (f : path) (files : list path) :
  loop_result od total i t0 (f :: files) =
    match (plan_step od i total f t0).2 with
    | Printed _ => loop_result od total (S i) t0 files
    | Leaves e => Raise e
    end.
Proof. reflexivity. Qed.

(** A planned iteration for a source file leaves the file system looking
    the same to the loop. *)
Lemma plan_step_keeps_view (od src : path) (all : list path)
    (t0 t : gmap (list string) node) (i total : nat) (f : path) :
  (forall nm, src <> joinpath od nm) -> src <> od ->
  (forall g, g ∈ all -> g <> od /\ forall nm, g <> joinpath od nm) ->
  same_view src all t0 t ->
  same_view src all t0
    (apply_effect (plan_step od i total f t).1 (output_path_for od f) t).
Proof.
  intros Hsrc' Hsrc Hall (Vsrc & Vfiles & Vdir).
  split; [|split].
  - rewrite plan_step_cell, <- Vsrc, effect_cell_off; [done| |done].
    apply Hsrc'.
  - intros g Hg. rewrite plan_step_cell, <- (Vfiles g Hg).
    destruct (Hall g Hg) as [Hg1 Hg2].
    rewrite effect_cell_off; [done| |done]. apply Hg2.
  - intros q. by rewrite plan_step_cell, cell_apply_is_dir.
Qed.

(** The loop from a state that looks like [t0] is the loop planned on
    [t0]: its result, the lines it prints, its effect at every path, and
    the state it leaves still looks like [t0]. *)
Lemma loop_run (od src : path) (all : list path)
    (t0 : gmap (list string) node) (total : nat) :
  src <> od -> (forall nm, src <> joinpath od nm) ->
  (forall f, f ∈ all -> f <> od /\ forall nm, f <> joinpath od nm) ->
  forall (files : list path) (i : nat) (st : state),
    (forall f, f ∈ files -> f ∈ all) ->
    same_view src all t0 (fs st) ->
    exists st',
      for_enumerate (loop_body od total) i files st
        = (st', loop_result od total i t0 files) /\
      (forall q, fs st' !! q =
         cells_apply (loop_cells od total i t0 files q) (fs st !! q)) /\
      stdout st' = (stdout st ++ loop_lines od total i t0 files)%list /\
      same_view src all t0 (fs st').
Proof.
  intros Hsrc Hsrc' Hall.
  induction files as [|f files IH]; intros i st Hsub Hview.
  - exists st. simpl. rewrite app_nil_r.
    split; [done|]. split; [done|]. split; [done|exact Hview].
  - assert (Hf : f ∈ all) by (apply Hsub; left).
    assert (Hplan : plan_step od i total f (fs st) = plan_step od i total f t0).
    { destruct Hview as (Vsrc & Vfiles & Vdir). apply plan_step_view; auto. }
    pose proof (plan_step_keeps_view od src all t0 (fs st) i total f
                  Hsrc' Hsrc Hall Hview) as Hview1.
    pose proof (plan_step_cell od i total f (fs st)) as Hcell.
    rewrite for_enumerate_cons, loop_body_run.
    cbn [loop_cells loop_lines loop_result]. cbv zeta.
    rewrite Hplan in *. unfold run_step.
    destruct ((plan_step od i total f t0).2) as [line|e].
    + destruct (IH (S i)
        (mkState (apply_effect (plan_step od i total f t0).1
                    (output_path_for od f) (fs st))
                 (stdout st ++ [line])))
        as (st' & Hrun & Hcells & Hout & Hview');
        [intros g Hg; apply Hsub; by right | exact Hview1 |].
      exists st'. split; [exact Hrun|]. split; [|split; [|exact Hview']].
      * intros q. rewrite Hcells, cells_apply_cons. cbn [fs]. by rewrite Hcell.
      * rewrite Hout. cbn [stdout]. by rewrite <- app_assoc.
    + eexists. split; [reflexivity|]. cbn [fs stdout].
      split; [|split; [by rewrite app_nil_r | exact Hview1]].
      intros q. by rewrite Hcell.
Qed.
(** *** Applying the same cell functions twice *)

Lemma cells_apply_dir (cs : list cellfn) (es : list string) :
  cells_apply cs (Some (Dir es)) = Some (Dir (listing_after cs es)).
Proof.
  unfold cells_apply, listing_after. revert es.
  induction cs as [|c cs IH]; intros es; simpl; [done|].
  destruct c; simpl; apply IH.
Qed.

Lemma add_entry_keeps (nm nm' : string) (es : list string) :
  nm' ∈ es -> nm' ∈ add_entry nm es.
Proof.
  intros Hin. unfold add_entry. case_bool_decide; [done|].
  apply elem_of_app. by left.
Qed.

Lemma add_entry_present (nm : string) (es : list string) :
  nm ∈ es -> add_entry nm es = es.
Proof. intros H. unfold add_entry. by rewrite bool_decide_true. Qed.

Lemma listing_after_keeps (cs : list cellfn) (es : list string) (nm : string) :
  nm ∈ es -> nm ∈ listing_after cs es.
Proof.
  unfold listing_after. revert es.
  induction cs as [|c cs IH]; intros es H; simpl; [done|].
  apply IH. destruct c; try done. by apply add_entry_keeps.
Qed.

Lemma listing_after_has (cs : list cellfn) (es : list string) (nm : string) :
  CList nm ∈ cs -> nm ∈ listing_after cs es.
Proof.
  revert es. induction cs as [|c cs IH]; intros es H.
  - by apply elem_of_nil in H.
  - apply elem_of_cons in H as [<-|H].
    + apply (listing_after_keeps cs). apply elem_of_add_entry.
    + apply (IH _ H).
Qed.

Lemma listing_after_fixed (cs : list cellfn) (es : list string) :
  (forall nm, CList nm ∈ cs -> nm ∈ es) -> listing_after cs es = es.
Proof.
  unfold listing_after. revert es.
  induction cs as [|c cs IH]; intros es H; simpl; [done|].
  assert (Hc : match c with CList nm => add_entry nm es | _ => es end = es).
  { destruct c; try done. apply add_entry_present, H. left. }
  rewrite Hc. apply IH. intros nm Hnm. apply H. by right.
Qed.

(** On a path that holds no directory the composed cell functions either
    change nothing, or leave one fixed file, or leave one fixed file where
    there was a file and nothing where there was nothing. *)
Lemma cells_apply_file_shape (cs : list cellfn) :
  (forall x, is_dir x = false -> cells_apply cs x = x) \/
  (exists b, forall x, is_dir x = false -> cells_apply cs x = Some (File b)) \/
  (exists b, cells_apply cs None = None /\
             forall c, cells_apply cs (Some (File c)) = Some (File b)).
Proof.
  induction cs as [|c cs IH] using rev_ind; [by left|].
  destruct IH as [IH | [(b & IH) | (b & IH0 & IH1)]].
  - destruct c as [|b'|b'|nm].
    + left. intros x Hx. by rewrite cells_apply_snoc, IH.
    + right. left. exists b'. intros x Hx. rewrite cells_apply_snoc, IH by done.
      by destruct x as [[?|?]|].
    + right. right. exists b'. split.
      * by rewrite cells_apply_snoc, IH.
      * intros c. by rewrite cells_apply_snoc, IH.
    + left. intros x Hx. rewrite cells_apply_snoc, IH by done.
      by destruct x as [[?|?]|].
  - destruct c as [|b'|b'|nm].
    + right. left. exists b. intros x Hx. by rewrite cells_apply_snoc, IH.
    + right. left. exists b'. intros x Hx. by rewrite cells_apply_snoc, IH.
    + right. left. exists b'. intros x Hx. by rewrite cells_apply_snoc, IH.
    + right. left. exists b. intros x Hx. by rewrite cells_apply_snoc, IH.
  - destruct c as [|b'|b'|nm].
    + right. right. exists b. split.
      * by rewrite cells_apply_snoc, IH0.
      * intros c. by rewrite cells_apply_snoc, IH1.
    + right. left. exists b'. intros x Hx. rewrite cells_apply_snoc.
      destruct x as [[?|?]|]; try done; [by rewrite IH1 | by rewrite IH0].
    + right. right. exists b'. split.
      * by rewrite cells_apply_snoc, IH0.
      * intros c. by rewrite cells_apply_snoc, IH1.
    + right. right. exists b. split.
      * by rewrite cells_apply_snoc, IH0.
      * intros c. by rewrite cells_apply_snoc, IH1.
Qed.

(** Applying the cell functions of a loop a second time changes nothing. *)
Lemma cells_apply_idem (cs : list cellfn) (x : option node) :
  cells_apply cs (cells_apply cs x) = cells_apply cs x.
Proof.
  destruct (is_dir x) eqn:Hx.
  - apply is_dir_true in Hx as [es ->].
    rewrite !cells_apply_dir. f_equal. f_equal.
    apply listing_after_fixed. intros nm Hnm. by apply listing_after_has.
  - destruct (cells_apply_file_shape cs) as [H | [(b & H) | (b & H0 & H1)]].
    + by rewrite !(H x Hx).
    + by rewrite (H x Hx), (H (Some (File b)) eq_refl).
    + destruct x as [[c|?]|]; try done.
      * by rewrite H1, H1.
      * by rewrite H0, H0.
Qed.

End Cells.

(** ** A whole run, planned *)

Section Runs.
Context `{W : World}.

Lemma main_run (root : path) (st : state) :
  main root st =
    match resize_images root st with
    | (st', Ok _) => (st', 0%Z)
    | (st', Raise KeyboardInterrupt) =>
        (mkState (fs st')
           (stdout st' ++
              match stdout_rejects (nl ++ "❌ Process interrupted by user") with
              | Some _ => []
              | None => [nl ++ "❌ Process interrupted by user"]
              end), 1%Z)
    | (st', Raise (Exception e)) =>
        (mkState (fs st')
           (stdout st' ++
              match stdout_rejects ("❌ Error: " ++ msg e) with
              | Some _ => []
              | None => ["❌ Error: " ++ msg e]
              end), 1%Z)
    end.
Proof.
  unfold main. destruct (resize_images root st) as [st' [[]|[|e]]];
    [reflexivity|..]; rewrite print_run; destruct (stdout_rejects _);
    simpl; rewrite ?app_nil_r; by destruct st'.
Qed.

Lemma main_fs (root : path) (st : state) :
  fs (main root st).1 = fs (resize_images root st).1.
Proof.
  rewrite main_run.
  by destruct (resize_images root st) as [st' [[]|[|e]]].
Qed.

(** The exit status is 0 exactly when [resize_images] returns. *)
Lemma main_status (root : path) (st : state) :
  (main root st).2 = match (resize_images root st).2 with
                     | Ok _ => 0%Z
                     | Raise _ => 1%Z
                     end.
Proof.
  rewrite main_run.
  by destruct (resize_images root st) as [st' [[]|[|e]]].
Qed.

Lemma same_view_refl (src : path) (files : list path)
    (t : gmap (list string) node) :
  same_view src files t t.
Proof. by repeat split. Qed.

Lemma source_file_off_destination (root : path) (nm : string) :
  joinpath (cocktails_dir root) nm <> output_dir root /\
  forall nm', joinpath (cocktails_dir root) nm <> joinpath (output_dir root) nm'.
Proof.
  unfold cocktails_dir, output_dir, joinpath. split.
  - intros H. apply (f_equal length) in H. rewrite !length_app in H.
    simpl in H. lia.
  - intros nm' H. rewrite <- !app_assoc in H.
    apply app_inv_head in H. discriminate.
Qed.

Lemma source_dir_off_destination (root : path) (nm : string) :
  cocktails_dir root <> joinpath (output_dir root) nm.
Proof.
  unfold cocktails_dir, output_dir, joinpath. intros H.
  apply (f_equal length) in H. rewrite !length_app in H. simpl in H. lia.
Qed.

Lemma image_files_off_destination (root : path) (es : list string) (f : path) :
  f ∈ image_files_of (cocktails_dir root) es ->
  f <> output_dir root /\ forall nm, f <> joinpath (output_dir root) nm.
Proof.
  intros Hf. apply elem_of_image_files_of in Hf as (nm & _ & -> & _).
  apply source_file_off_destination.
Qed.

(** The loop of [resize_images], once the count line is printed, is the
    loop planned on any [t0] that the state after [mkdir] looks like. *)
Lemma resize_images_loop (root : path) (st st0 : state)
    (t0 : gmap (list string) node) (es : list string) :
  mkdir_exist_ok (output_dir root) st = (st0, Ok tt) ->
  t0 !! cocktails_dir root = Some (Dir es) ->
  let files := image_files_of (cocktails_dir root) es in
  let n := length files in
  same_view (cocktails_dir root) files t0 (fs st0) ->
  exists st1,
    for_enumerate (loop_body (output_dir root) n) 1 files
        (mkState (fs st0) (stdout st ++ [found_line n]))
      = (st1, loop_result (output_dir root) n 1 t0 files) /\
    (forall q, fs st1 !! q =
       cells_apply (loop_cells (output_dir root) n 1 t0 files q) (fs st0 !! q)) /\
    stdout st1
      = (stdout st ++ found_line n :: loop_lines (output_dir root) n 1 t0 files)%list /\
    same_view (cocktails_dir root) files t0 (fs st1) /\
    (stdout_rejects (found_line n) = None ->
     resize_images root st =
       match loop_result (output_dir root) n 1 t0 files with
       | Ok _ => print_all (banner root) st1
       | Raise e => (st1, Raise e)
       end).
Proof.
  intros Hmk Hsrc files n Hview.
  assert (Hsrc0 : fs st0 !! cocktails_dir root = Some (Dir es)).
  { destruct Hview as (-> & _). exact Hsrc. }
  pose proof (mkdir_exist_ok_frame _ _ _ _ Hmk) as [Hout _].
  destruct (loop_run (output_dir root) (cocktails_dir root) files t0 n
              (cocktails_dir_neq_output_dir root)
              (source_dir_off_destination root)
              (image_files_off_destination root es)
              files 1
              (mkState (fs st0) (stdout st ++ [found_line n]))
              (fun f H => H) Hview) as (st1 & Hrun & Hcells & Hlines & Hview1).
  exists st1. split; [exact Hrun|]. split; [exact Hcells|].
  split; [|split; [exact Hview1|]].
  - rewrite Hlines. cbn [stdout]. by rewrite <- app_assoc.
  - intros Hfound.
    rewrite (resize_images_run root st st0 es Hmk Hsrc0). fold files. fold n.
    rewrite Hfound, Hout, Hrun.
    by destruct (loop_result _ _ _ _ _) as [[]|e].
Qed.

(** The file system [resize_images] leaves, path by path, planned on any
    [t0] that the state after [mkdir] looks like. *)
Lemma resize_images_cells (root : path) (st st0 : state)
    (t0 : gmap (list string) node) (es : list string) :
  mkdir_exist_ok (output_dir root) st = (st0, Ok tt) ->
  t0 !! cocktails_dir root = Some (Dir es) ->
  let files := image_files_of (cocktails_dir root) es in
  same_view (cocktails_dir root) files t0 (fs st0) ->
  (forall q,
     fs (resize_images root st).1 !! q =
       cells_apply (run_cells root t0 es q) (fs st0 !! q)) /\
  same_view (cocktails_dir root) files t0 (fs (resize_images root st).1).
Proof.
  intros Hmk Hsrc files Hview. unfold run_cells. fold files.
  destruct (resize_images_loop root st st0 t0 es Hmk Hsrc Hview)
    as (st1 & _ & Hcells & _ & Hview1 & Hrun).
  fold files in Hrun, Hcells.
  destruct (stdout_rejects (found_line (length files))) eqn:Hfound.
  - assert (Hsrc0 : fs st0 !! cocktails_dir root = Some (Dir es)).
    { destruct Hview as (-> & _). exact Hsrc. }
    rewrite (resize_images_run root st st0 es Hmk Hsrc0). fold files.
    rewrite Hfound. by split.
  - rewrite (Hrun eq_refl).
    destruct (loop_result _ _ _ _ _) as [[]|e]; [|by split].
    rewrite print_all_fs. by split.
Qed.

(** When no Ctrl-C arrives and every error line of a failed attempt can
    be printed, every planned iteration prints its line. *)
Lemma loop_goes_on (od : path) (total : nat) (t0 : gmap (list string) node)
    (files : list path) :
  forall i,
    (forall f, f ∈ files -> sigint (name f) = None) ->
    (forall k f e, files !! k = Some f ->
       (attempt od (i + k) total f t0).2 = Raise (Exception e) ->
       stdout_rejects (error_line f e) = None) ->
    loop_result od total i t0 files = Ok tt /\
    length (loop_lines od total i t0 files) = length files.
Proof.
  induction files as [|f files IH]; intros i Hsig Herr; [done|].
  rewrite loop_result_cons, loop_lines_cons.
  assert (Hf : sigint (name f) = None) by (apply Hsig; left).
  assert (Hgo : exists line, (plan_step od i total f t0).2 = Printed line).
  { unfold plan_step.
    pose proof (attempt_no_interrupt od i total f t0 Hf) as Hni.
    specialize (Herr 0%nat f). rewrite Nat.add_0_r in Herr.
    destruct (attempt od i total f t0) as [eff [[]|[|e]]]; [eauto|done|].
    rewrite Hf, (Herr e eq_refl eq_refl). eauto. }
  destruct Hgo as [line ->].
  destruct (IH (S i)) as [Hres Hlen].
  - intros g Hg. apply Hsig. by right.
  - intros k g e Hk. replace (S i + k)%nat with (i + S k)%nat by lia.
    by apply (Herr (S k)).
  - split; [exact Hres|]. simpl. by rewrite Hlen.
Qed.

(** A planned loop that runs to its end is a trace: every attempt
    returned, or was caught and reported. *)
Lemma loop_trace_of_plan (od src : path) (all : list path)
    (t0 : gmap (list string) node) (total : nat) :
  src <> od -> (forall nm, src <> joinpath od nm) ->
  (forall f, f ∈ all -> f <> od /\ forall nm, f <> joinpath od nm) ->
  forall (files : list path) (i : nat) (st : state),
    (forall f, f ∈ files -> f ∈ all) ->
    same_view src all t0 (fs st) ->
    loop_result od total i t0 files = Ok tt ->
    exists st',
      loop_trace od total i files st (loop_lines od total i t0 files) st' /\
      for_enumerate (loop_body od total) i files st = (st', Ok tt) /\
      stdout st' = (stdout st ++ loop_lines od total i t0 files)%list /\
      same_view src all t0 (fs st').
Proof.
  intros Hsrc Hsrc' Hall.
  induction files as [|f files IH]; intros i st Hsub Hview Hres.
  - exists st. split; [constructor|]. split; [reflexivity|].
    split; [simpl; by rewrite app_nil_r | exact Hview].
  - assert (Hf : f ∈ all) by (apply Hsub; left).
    assert (Hplan : plan_step od i total f (fs st) = plan_step od i total f t0).
    { destruct Hview as (Vsrc & Vfiles & Vdir). apply plan_step_view; auto. }
    pose proof (plan_step_keeps_view od src all t0 (fs st) i total f
                  Hsrc' Hsrc Hall Hview) as Hview1.
    rewrite for_enumerate_cons, loop_body_run, loop_lines_cons.
    rewrite loop_result_cons in Hres.
    pose proof (process_image_run od i total f st) as Hproc.
    rewrite <- Hplan in *. unfold run_step.
    unfold plan_step in *.
    destruct (attempt od i total f (fs st)) as [eff [[]|[|e]]];
      cbn [fst snd] in *; [|done|].
    + destruct (IH (S i)
        (mkState (apply_effect eff (output_path_for od f) (fs st))
                 (stdout st ++ [resized_line i total f])))
        as (st' & Htr & Hrun & Hout & Hview');
        [intros g Hg; apply Hsub; by right | exact Hview1 | exact Hres |].
      exists st'. split; [|split; [exact Hrun|split; [|exact Hview']]].
      * eapply trace_resized; [exact Hproc | exact Htr].
      * rewrite Hout. cbn [stdout]. by rewrite <- app_assoc.
    + destruct (sigint (name f)); [done|].
      destruct (stdout_rejects (error_line f e)); [done|]. cbn [fst snd] in *.
      destruct (IH (S i)
        (mkState (apply_effect eff (output_path_for od f) (fs st))
                 (stdout st ++ [error_line f e])))
        as (st' & Htr & Hrun & Hout & Hview');
        [intros g Hg; apply Hsub; by right | exact Hview1 | exact Hres |].
      exists st'. split; [|split; [exact Hrun|split; [|exact Hview']]].
      * eapply trace_error; [exact Hproc|].
        cbn [fs stdout]. by rewrite app_nil_r.
      * rewrite Hout. cbn [stdout]. by rewrite <- app_assoc.
Qed.

(** The whole of [resize_images] when no Ctrl-C arrives and standard
    output takes every line: every enumerated file is attempted and the
    banner follows. *)
Lemma resize_images_completes (root : path) (st st0 : state)
    (es : list string) :
  mkdir_exist_ok (output_dir root) st = (st0, Ok tt) ->
  fs st !! cocktails_dir root = Some (Dir es) ->
  let files := image_files_of (cocktails_dir root) es in
  let n := length files in
  (forall f, f ∈ files -> sigint (name f) = None) ->
  stdout_rejects (found_line n) = None ->
  (forall k f e, files !! k = Some f ->
     (attempt (output_dir root) (S k) n f (fs st0)).2 = Raise (Exception e) ->
     stdout_rejects (error_line f e) = None) ->
  exists lines st1,
    loop_trace (output_dir root) n 1 files
      (mkState (fs st0) (stdout st ++ [found_line n])) lines st1 /\
    length lines = length files /\
    stdout st1 = (stdout st ++ found_line n :: lines)%list /\
    for_enumerate (loop_body (output_dir root) n) 1 files
        (mkState (fs st0) (stdout st ++ [found_line n])) = (st1, Ok tt) /\
    resize_images root st = print_all (banner root) st1.
Proof.
  intros Hmk Hsrc files n Hsig Hfound Herr.
  pose proof (mkdir_keeps_source _ _ _ _ Hmk) as Hsrc0. rewrite Hsrc in Hsrc0.
  destruct (loop_goes_on (output_dir root) n (fs st0) files 1 Hsig Herr)
    as [Hres Hlen].
  destruct (resize_images_loop root st st0 (fs st0) es Hmk Hsrc0
              (same_view_refl _ _ _))
    as (st1 & Hrun & _ & Hlines & _ & Hmain).
  fold files in Hrun, Hlines, Hmain. fold n in Hrun, Hlines, Hmain.
  destruct (loop_trace_of_plan (output_dir root) (cocktails_dir root) files
              (fs st0) n
              (cocktails_dir_neq_output_dir root)
              (source_dir_off_destination root)
              (image_files_off_destination root es)
              files 1
              (mkState (fs st0) (stdout st ++ [found_line n]))
              (fun f H => H) (same_view_refl _ _ _) Hres)
    as (st1' & Htr & Hrun' & _ & _).
  rewrite Hrun' in Hrun. injection Hrun as <- _.
  exists (loop_lines (output_dir root) n 1 (fs st0) files), st1'.
  split; [exact Htr|]. split; [exact Hlen|]. split; [exact Hlines|].
  split; [exact Hrun'|].
  rewrite (Hmain Hfound). by rewrite Hres.
Qed.

(** A pending Ctrl-C for one of the files keeps the planned loop from
    running to its end. *)
Lemma loop_result_interrupted (od : path) (total : nat)
    (t0 : gmap (list string) node) (files : list path) (f : path) (m : moment) :
  forall i,
    f ∈ files -> sigint (name f) = Some m ->
    loop_result od total i t0 files <> Ok tt.
Proof.
  induction files as [|g files IH]; intros i Hin Hf.
  - by apply elem_of_nil in Hin.
  - rewrite loop_result_cons.
    destruct ((plan_step od i total g t0).2) as [line|e] eqn:E; [|done].
    apply elem_of_cons in Hin as [->|Hin].
    + rewrite (plan_step_interrupted od i total g t0 m Hf) in E. discriminate.
    + by apply IH.
Qed.

End Runs.

(** ** Failures, interruption and the exit status *)

Section Batch.
Context `{W : World}.

(** C4, as amended.  With the destination directory in place, no Ctrl-C,
    and a standard output that takes the count line, the banner and the
    error line of every attempt that fails, the loop attempts every
    enumerated file in order: an attempt that raises is caught,
    contributes the line [Error processing <name>: <message>], and the
    loop goes on with the next file from the state the attempt left (this
    is [loop_trace]); the run prints one line per file between the count
    line and the banner, and the exit status is 0 however many attempts
    failed. *)
Theorem per_file_failures_are_caught_and_the_batch_completes
    (root : path) (st st0 : state) (es : list string) :
  mkdir_exist_ok (output_dir root) st = (st0, Ok tt) ->
  fs st !! cocktails_dir root = Some (Dir es) ->
  let files := image_files_of (cocktails_dir root) es in
  let n := length files in
  (forall f, f ∈ files -> sigint (name f) = None) ->
  stdout_rejects (found_line n) = None ->
  (forall line, line ∈ banner root -> stdout_rejects line = None) ->
  (forall k f e, files !! k = Some f ->
     (attempt (output_dir root) (S k) n f (fs st0)).2 = Raise (Exception e) ->
     stdout_rejects (error_line f e) = None) ->
  exists lines st1,
    loop_trace (output_dir root) n 1 files
      (mkState (fs st0) (stdout st ++ [found_line n])) lines st1 /\
    length lines = length files /\
    main root st =
      (mkState (fs st1) (stdout st ++ found_line n :: lines ++ banner root),
       0%Z).
Proof.
  intros Hmk Hsrc files n Hsig Hfound Hbanner Herr.
  destruct (resize_images_completes root st st0 es Hmk Hsrc Hsig Hfound Herr)
    as (lines & st1 & Htr & Hlen & Hout & _ & Hrun).
  exists lines, st1. split; [exact Htr|]. split; [exact Hlen|].
  rewrite main_run, Hrun, (print_all_accepted _ _ Hbanner), Hout.
  by rewrite <- app_assoc.
Qed.

(** An attempt that raises an [Exception] while no Ctrl-C is pending is
    turned by the handler into its error line, when standard output takes
    that line, and the loop continues with the rest; when it does not,
    the handler's own exception leaves the loop. *)
Lemma failed_attempt_continues (od : path) (total i : nat) (p : path)
    (rest : list path) (st st1 : state) (e : pyerr) :
  process_image od i total p st = (st1, Raise (Exception e)) ->
  sigint (name p) = None ->
  for_enumerate (loop_body od total) i (p :: rest) st =
    match stdout_rejects (error_line p e) with
    | None =>
        for_enumerate (loop_body od total) (S i) rest
          (mkState (fs st1) (stdout st1 ++ [error_line p e]))
    | Some e' => (st1, Raise (Exception e'))
    end.
Proof.
  intros H Hs. rewrite for_enumerate_cons.
  unfold loop_body at 1, try_except_Exception.
  rewrite H, Hs, print_run. fold (error_line p e).
  by destruct (stdout_rejects (error_line p e)).
Qed.

(** C5, as amended.  The exit status is 0 exactly when [resize_images]
    returns, 1 when [KeyboardInterrupt] or an [Exception] escapes it, each
    with its own last line when standard output takes that line.  An
    absent source directory makes an exception escape (status 1); a
    Ctrl-C during any enumerated file, at whatever moment, passes the
    per-file handler, and a run with such a file ends with status 1;
    without Ctrl-C, a run that reaches the loop and whose lines standard
    output takes ends with status 0 whatever the per-file outcomes. *)
Theorem exit_status_of_main (root : path) (st : state) :
  (forall st', resize_images root st = (st', Ok tt) ->
     main root st = (st', 0%Z)) /\
  (forall st', resize_images root st = (st', Raise KeyboardInterrupt) ->
     main root st =
       (mkState (fs st')
          (stdout st' ++
             match stdout_rejects (nl ++ "❌ Process interrupted by user") with
             | Some _ => []
             | None => [nl ++ "❌ Process interrupted by user"]
             end), 1%Z)) /\
  (forall st' e, resize_images root st = (st', Raise (Exception e)) ->
     main root st =
       (mkState (fs st')
          (stdout st' ++
             match stdout_rejects ("❌ Error: " ++ msg e) with
             | Some _ => []
             | None => ["❌ Error: " ++ msg e]
             end), 1%Z)) /\
  (fs st !! cocktails_dir root = None -> (main root st).2 = 1%Z) /\
  (forall od total i p st1 m,
     sigint (name p) = Some m ->
     (loop_body od total i p st1).2 = Raise KeyboardInterrupt) /\
  (forall st0 es f m,
     mkdir_exist_ok (output_dir root) st = (st0, Ok tt) ->
     fs st !! cocktails_dir root = Some (Dir es) ->
     f ∈ image_files_of (cocktails_dir root) es ->
     sigint (name f) = Some m ->
     (main root st).2 = 1%Z) /\
  (forall st0 es,
     mkdir_exist_ok (output_dir root) st = (st0, Ok tt) ->
     fs st !! cocktails_dir root = Some (Dir es) ->
     let files := image_files_of (cocktails_dir root) es in
     (forall f, f ∈ files -> sigint (name f) = None) ->
     stdout_rejects (found_line (length files)) = None ->
     (forall line, line ∈ banner root -> stdout_rejects line = None) ->
     (forall k f e, files !! k = Some f ->
        (attempt (output_dir root) (S k) (length files) f (fs st0)).2
          = Raise (Exception e) ->
        stdout_rejects (error_line f e) = None) ->
     (main root st).2 = 0%Z).
Proof.
  split; [|split; [|split; [|split; [|split; [|split]]]]].
  - intros st' H. by rewrite main_run, H.
  - intros st' H. by rewrite main_run, H.
  - intros st' e H. by rewrite main_run, H.
  - intros H. destruct (resize_images_without_source root st H) as (st' & e & Hr).
    by rewrite main_status, Hr.
  - intros od total i p st1 m H. rewrite loop_body_run. unfold run_step.
    by rewrite (plan_step_interrupted od i total p (fs st1) m H).
  - intros st0 es f m Hmk Hsrc Hin Hf. rewrite main_status.
    pose proof (mkdir_keeps_source _ _ _ _ Hmk) as Hsrc0. rewrite Hsrc in Hsrc0.
    destruct (resize_images_loop root st st0 (fs st0) es Hmk Hsrc0
                (same_view_refl _ _ _)) as (st1 & _ & _ & _ & _ & Hrun).
    destruct (stdout_rejects
                (found_line (length (image_files_of (cocktails_dir root) es))))
      eqn:Hfound.
    + rewrite (resize_images_run root st st0 es Hmk Hsrc0). cbv zeta.
      by rewrite Hfound.
    + rewrite (Hrun eq_refl).
      pose proof (loop_result_interrupted (output_dir root)
                    (length (image_files_of (cocktails_dir root) es)) (fs st0)
                    _ f m 1 Hin Hf) as Hne.
      by destruct (loop_result _ _ _ _ _) as [[]|e].
  - intros st0 es Hmk Hsrc files Hsig Hfound Hbanner Herr.
    destruct (resize_images_completes root st st0 es Hmk Hsrc Hsig Hfound Herr)
      as (lines & st1 & _ & _ & _ & _ & Hrun).
    by rewrite main_status, Hrun, (print_all_accepted _ _ Hbanner).
Qed.

(** C10, as amended.  Once the loop has run to its end, the three lines
    of the banner are printed, provided standard output takes them,
    whatever the loop did; the loop runs to its end whenever it is reached
    without Ctrl-C and every error line of a failed attempt can be
    printed.  The output then is the count line, one line per enumerated
    file, none when nothing was enumerated, and the banner, and nothing in
    this depends on any attempt having succeeded. *)
Theorem banner_is_printed_after_the_loop
    (root : path) (st st0 : state) (es : list string) :
  mkdir_exist_ok (output_dir root) st = (st0, Ok tt) ->
  fs st !! cocktails_dir root = Some (Dir es) ->
  let files := image_files_of (cocktails_dir root) es in
  let n := length files in
  stdout_rejects (found_line n) = None ->
  (forall line, line ∈ banner root -> stdout_rejects line = None) ->
  (forall st1,
     for_enumerate (loop_body (output_dir root) n) 1 files
         (mkState (fs st0) (stdout st ++ [found_line n])) = (st1, Ok tt) ->
     resize_images root st
       = (mkState (fs st1) (stdout st1 ++ banner root), Ok tt)) /\
  ((forall f, f ∈ files -> sigint (name f) = None) ->
   (forall k f e, files !! k = Some f ->
      (attempt (output_dir root) (S k) n f (fs st0)).2 = Raise (Exception e) ->
      stdout_rejects (error_line f e) = None) ->
   exists lines st',
     resize_images root st = (st', Ok tt) /\
     stdout st' = (stdout st ++ found_line n :: lines ++ banner root)%list /\
     length lines = length files /\
     (files = [] -> stdout st' = (stdout st ++ found_line 0 :: banner root)%list)).
Proof.
  intros Hmk Hsrc files n Hfound Hbanner. split.
  - intros st1 Hloop.
    pose proof (mkdir_keeps_source _ _ _ _ Hmk) as Hsrc0. rewrite Hsrc in Hsrc0.
    pose proof (mkdir_exist_ok_frame _ _ _ _ Hmk) as [Hout _].
    rewrite (resize_images_run root st st0 es Hmk Hsrc0). fold files. fold n.
    rewrite Hfound, Hout, Hloop. by apply print_all_accepted.
  - intros Hsig Herr.
    destruct (resize_images_completes root st st0 es Hmk Hsrc Hsig Hfound Herr)
      as (lines & st1 & _ & Hlen & Hout & _ & Hrun).
    rewrite (print_all_accepted _ _ Hbanner) in Hrun.
    eexists lines, _. split; [exact Hrun|]. cbn [stdout].
    split; [by rewrite Hout, <- app_assoc|]. split; [exact Hlen|].
    intros Hnil. unfold n, files in *.
    assert (lines = []) as ->
      by (destruct lines; [done|]; rewrite Hnil in Hlen; discriminate Hlen).
    rewrite Hout, <- app_assoc. by rewrite Hnil.
Qed.

End Batch.

Lemma per_file_failures_are_caught_and_the_batch_completes_witness :
  let W := Demo.demo_world in
  let st := Demo.start [("a.png", Demo.rgb_1x1); ("b.PNG", Demo.garbage);
                        ("full.jpeg", Demo.rgb_1x1)] in
  let files := image_files_of ["proj"; "assets"; "cocktails"]
                 ["a.png"; "b.PNG"; "full.jpeg"] in
  (exists lines st1,
     loop_trace ["proj"; "assets"; "cocktails-resized"] (length files) 1 files
       (mkState (fs (mkdir_exist_ok (output_dir ["proj"]) st).1)
          (stdout st ++ [found_line (length files)])) lines st1 /\
     length lines = length files /\
     main ["proj"] st =
       (mkState (fs st1)
          (stdout st ++ found_line (length files) :: lines ++ banner ["proj"]),
        0%Z)) /\
  stdout (main ["proj"] st).1 =
    (["Found 3 images to resize...";
      "Resized 1/3: a.png";
      "Error processing b.PNG: cannot identify image file";
      "Error processing full.jpeg: [Errno 28] No space left on device"]
     ++ banner ["proj"])%list.
Proof.
  intros W st files. split.
  - apply (per_file_failures_are_caught_and_the_batch_completes (W := W)
             ["proj"] st (mkdir_exist_ok (output_dir ["proj"]) st).1
             ["a.png"; "b.PNG"; "full.jpeg"]).
    + vm_compute. reflexivity.
    + vm_compute. reflexivity.
    + apply Forall_forall. vm_compute. repeat constructor.
    + vm_compute. reflexivity.
    + apply Forall_forall. vm_compute. repeat constructor.
    + intros k f e Hk Ha.
      destruct k as [|[|[|k]]]; vm_compute in Hk; try discriminate;
        injection Hk as <-; vm_compute in Ha; try discriminate;
        injection Ha as <-; vm_compute; reflexivity.
  - vm_compute. reflexivity.
Defined.

(** C4, as stated, fails: the file [bad\xff.png] cannot be identified as
    an image; the failure is caught, but standard output cannot encode
    the name in the error line, the handler's [print] raises, the batch is
    aborted with status 1, and the sound file [a.png] after it is never
    processed. *)
Lemma unprintable_name_of_a_failed_file_aborts_the_batch :
  let W := Demo.demo_world in
  let st := Demo.start [(Demo.odd_name, Demo.garbage); ("a.png", Demo.rgb_1x1)] in
  sigint Demo.odd_name = None /\ sigint "a.png" = None /\
  (render ["proj"; "assets"; "cocktails"; Demo.odd_name] st).2
    = Raise (Exception (PyErr "UnidentifiedImageError" "cannot identify image file")) /\
  main ["proj"] st =
    (mkState (fs (mkdir_exist_ok (output_dir ["proj"]) st).1)
       ["Found 2 images to resize...";
        "❌ Error: 'utf-8' codec can't encode character '\udcff': surrogates not allowed"],
     1%Z) /\
  fs (main ["proj"] st).1 !! ["proj"; "assets"; "cocktails-resized"; "a.jpg"] = None.
Proof.
  intros W st. repeat split; vm_compute; reflexivity.
Qed.

Lemma exit_status_of_main_witness :
  let W := Demo.demo_world in
  let st := Demo.start [("a.png", Demo.rgb_1x1); ("ctrl-c-saved.png", Demo.rgb_1x1);
                        ("c.png", Demo.rgb_1x1)] in
  (main ["proj"] st).2 = 1%Z /\
  (main ["elsewhere"] st).2 = 1%Z /\
  (main ["proj"] (Demo.start [("b.PNG", Demo.garbage)])).2 = 0%Z.
Proof.
  intros W st. split; [|split].
  - apply (proj1 (proj2 (proj2 (proj2 (proj2 (proj2
             (exit_status_of_main (W := W) ["proj"] st))))))
           (mkdir_exist_ok (output_dir ["proj"]) st).1
           ["a.png"; "ctrl-c-saved.png"; "c.png"]
           ["proj"; "assets"; "cocktails"; "ctrl-c-saved.png"] AfterSave).
    + vm_compute. reflexivity.
    + vm_compute. reflexivity.
    + vm_compute. repeat constructor.
    + vm_compute. reflexivity.
  - apply (proj1 (proj2 (proj2 (proj2
             (exit_status_of_main (W := W) ["elsewhere"] st))))).
    vm_compute. reflexivity.
  - apply (proj2 (proj2 (proj2 (proj2 (proj2 (proj2
             (exit_status_of_main (W := W) ["proj"]
                (Demo.start [("b.PNG", Demo.garbage)])))))))
           (mkdir_exist_ok (output_dir ["proj"])
              (Demo.start [("b.PNG", Demo.garbage)])).1
           ["b.PNG"]).
    + vm_compute. reflexivity.
    + vm_compute. reflexivity.
    + apply Forall_forall. vm_compute. repeat constructor.
    + vm_compute. reflexivity.
    + apply Forall_forall. vm_compute. repeat constructor.
    + intros k f e Hk Ha.
      destruct k as [|k]; vm_compute in Hk; try discriminate;
        injection Hk as <-; vm_compute in Ha; try discriminate;
        injection Ha as <-; vm_compute; reflexivity.
Defined.

(** C5, as stated, fails: in a run in which every file produces a
    per-file error (neither file can be identified as an image) and no
    Ctrl-C arrives, the error line of the second file cannot be encoded
    by standard output, the handler's exception escapes, and the exit
    status is 1, not 0. *)
Lemma run_with_only_per_file_errors_exits_with_status_1 :
  let W := Demo.demo_world in
  let st := Demo.start [("b.PNG", Demo.garbage); (Demo.odd_name, Demo.garbage)] in
  sigint "b.PNG" = None /\ sigint Demo.odd_name = None /\
  (render ["proj"; "assets"; "cocktails"; "b.PNG"] st).2
    = Raise (Exception (PyErr "UnidentifiedImageError" "cannot identify image file")) /\
  (render ["proj"; "assets"; "cocktails"; Demo.odd_name] st).2
    = Raise (Exception (PyErr "UnidentifiedImageError" "cannot identify image file")) /\
  stdout (main ["proj"] st).1 =
    ["Found 2 images to resize...";
     "Error processing b.PNG: cannot identify image file";
     "❌ Error: 'utf-8' codec can't encode character '\udcff': surrogates not allowed"] /\
  (main ["proj"] st).2 = 1%Z.
Proof.
  intros W st. repeat split; vm_compute; reflexivity.
Qed.

Lemma banner_is_printed_after_the_loop_witness :
  let W := Demo.demo_world in
  (exists lines st',
     resize_images ["proj"] (Demo.start []) = (st', Ok tt) /\
     stdout st' = (found_line 0 :: lines ++ banner ["proj"])%list /\
     length lines = 0%nat /\
     (image_files_of (cocktails_dir ["proj"]) [] = [] ->
      stdout st' = (found_line 0 :: banner ["proj"])%list)) /\
  (exists lines st',
     resize_images ["proj"] (Demo.start [("b.PNG", Demo.garbage)]) = (st', Ok tt) /\
     stdout st' = (found_line 1 :: lines ++ banner ["proj"])%list /\
     length lines = 1%nat /\
     (image_files_of (cocktails_dir ["proj"]) ["b.PNG"] = [] ->
      stdout st' = (found_line 0 :: banner ["proj"])%list)).
Proof.
  intros W. split.
  - apply (proj2 (banner_is_printed_after_the_loop (W := W) ["proj"] (Demo.start [])
             (mkdir_exist_ok (output_dir ["proj"]) (Demo.start [])).1 []
             ltac:(vm_compute; reflexivity) ltac:(vm_compute; reflexivity)
             ltac:(vm_compute; reflexivity)
             ltac:(apply Forall_forall; vm_compute; repeat constructor))).
    + apply Forall_forall. vm_compute. constructor.
    + intros k f e Hk. vm_compute in Hk. discriminate.
  - apply (proj2 (banner_is_printed_after_the_loop (W := W) ["proj"]
             (Demo.start [("b.PNG", Demo.garbage)])
             (mkdir_exist_ok (output_dir ["proj"])
                (Demo.start [("b.PNG", Demo.garbage)])).1 ["b.PNG"]
             ltac:(vm_compute; reflexivity) ltac:(vm_compute; reflexivity)
             ltac:(vm_compute; reflexivity)
             ltac:(apply Forall_forall; vm_compute; repeat constructor))).
    + apply Forall_forall. vm_compute. repeat constructor.
    + intros k f e Hk Ha.
      destruct k as [|k]; vm_compute in Hk; try discriminate;
        injection Hk as <-; vm_compute in Ha; try discriminate;
        injection Ha as <-; vm_compute; reflexivity.
Defined.

(** C10, as stated, fails: the only enumerated file produces a per-file
    error (it cannot be identified as an image), no Ctrl-C arrives, and
    yet no line of the banner is printed: the handler's [print] raises on
    the file name and the exception leaves [resize_images] before the
    banner. *)
Lemma no_banner_when_an_error_line_cannot_be_printed :
  let W := Demo.demo_world in
  let st := Demo.start [(Demo.odd_name, Demo.garbage)] in
  sigint Demo.odd_name = None /\
  (render ["proj"; "assets"; "cocktails"; Demo.odd_name] st).2
    = Raise (Exception (PyErr "UnidentifiedImageError" "cannot identify image file")) /\
  stdout (main ["proj"] st).1 =
    ["Found 1 images to resize...";
     "❌ Error: 'utf-8' codec can't encode character '\udcff': surrogates not allowed"] /\
  nl ++ "✅ All images resized successfully!" ∉ stdout (main ["proj"] st).1.
Proof.
  intros W st. split; [vm_compute; reflexivity|].
  split; [vm_compute; reflexivity|].
  split; [vm_compute; reflexivity|].
  assert (E : stdout (main ["proj"] st).1 =
    ["Found 1 images to resize...";
     "❌ Error: 'utf-8' codec can't encode character '\udcff': surrogates not allowed"])
    by (vm_compute; reflexivity).
  rewrite E. intros H.
  apply elem_of_cons in H as [H|H]; [discriminate H|].
  apply list_elem_of_singleton in H. discriminate H.
Qed.

(** ** The file system after a run *)

Section Frame.
Context `{W : World}.



Lemma resize_images_raise_fs (root : path) (st st0 : state) :
  mkdir_exist_ok (output_dir root) st = (st0, Ok tt) ->
  (forall es, fs st0 !! cocktails_dir root <> Some (Dir es)) ->
  fs (resize_images root st).1 = fs st0.
Proof.
  intros Hmk Hsrc. unfold resize_images.
  rewrite bind_run, Hmk, bind_run, iterdir_run.
  destruct (fs st0 !! cocktails_dir root) as [[b|es]|] eqn:E; try done.
  by destruct (Hsrc es).
Qed.

Lemma resize_images_mkdir_raise (root : path) (st st0 : state) (e : exn) :
  mkdir_exist_ok (output_dir root) st = (st0, Raise e) ->
  resize_images root st = (st0, Raise e) /\ st0 = st.
Proof.
  intros Hmk. unfold resize_images. rewrite bind_run, Hmk. split; [done|].
  destruct (mkdir_exist_ok_cases (output_dir root) st)
    as [(es & _ & E) | [(es & _ & _ & E) | (e' & E & _)]];
    rewrite E in Hmk; congruence.
Qed.


End Frame.

(** ** Confinement, reruns, and what a failed input leaves *)

Section Reruns.
Context `{W : World}.

Lemma mkdir_exist_ok_is_dir (d : path) (st st0 : state) :
  mkdir_exist_ok d st = (st0, Ok tt) -> is_dir (fs st0 !! d) = true.
Proof.
  intros Hmk.
  destruct (mkdir_exist_ok_cases d st)
    as [(es & Hd & E) | [(es & _ & _ & E) | (e & E & _)]];
    rewrite E in Hmk; try discriminate; injection Hmk as <-.
  - by rewrite Hd.
  - simpl. by rewrite lookup_insert_eq.
Qed.

Lemma mkdir_exist_ok_on_dir (d : path) (st : state) :
  is_dir (fs st !! d) = true -> mkdir_exist_ok d st = (st, Ok tt).
Proof.
  intros H. apply is_dir_true in H as [es H].
  unfold mkdir_exist_ok. by rewrite H.
Qed.

Lemma mkdir_exist_ok_raise_again (d : path) (st st0 : state) (e : exn)
    (o : list string) :
  mkdir_exist_ok d st = (st0, Raise e) ->
  mkdir_exist_ok d (mkState (fs st) o) = (mkState (fs st) o, Raise e).
Proof.
  unfold mkdir_exist_ok. simpl.
  destruct (fs st !! d) as [[b|es]|]; [by intros [= _ <-] | done |].
  destruct (fs st !! parent d) as [[b|es]|]; [by intros [= _ <-] | done |].
  by intros [= _ <-].
Qed.


(** C9.  Running the program again on the file system a run has left
    (whatever is on standard output) leaves every node exactly as it was:
    the same files are enumerated, decoded, transformed and encoded, and
    every destination file is rewritten with the bytes it already holds.
    Decoder, resampler and encoder are functions of their arguments here;
    the script itself feeds them nothing that varies between runs. *)
Theorem rerun_leaves_the_file_system_as_it_is
    (root : path) (st : state) (o : list string) :
  fs (main root (mkState (fs (main root st).1) o)).1 = fs (main root st).1.
Proof.
  rewrite !main_fs.
  destruct (mkdir_exist_ok (output_dir root) st) as [st0 [[]|e]] eqn:Hmk.
  - pose proof (mkdir_exist_ok_is_dir _ _ _ Hmk) as Hod.
    destruct (decide (is_dir (fs st0 !! cocktails_dir root) = true)) as [Hsrc|Hsrc].
    + apply is_dir_true in Hsrc as [es Hsrc].
      destruct (resize_images_cells root st st0 (fs st0) es Hmk Hsrc
                  (same_view_refl _ _ _)) as [Hcells1 Hview1].
      set (st1 := (resize_images root st).1) in *.
      assert (Hmk2 : mkdir_exist_ok (output_dir root) (mkState (fs st1) o)
                     = (mkState (fs st1) o, Ok tt)).
      { apply mkdir_exist_ok_on_dir. simpl.
        destruct Hview1 as (_ & _ & Hdir). by rewrite Hdir. }
      destruct (resize_images_cells root (mkState (fs st1) o)
                  (mkState (fs st1) o) (fs st0) es Hmk2 Hsrc Hview1)
        as [Hcells2 _].
      apply map_eq. intros q. rewrite Hcells2. simpl.
      rewrite Hcells1. apply cells_apply_idem.
    + assert (Hnd : forall es, fs st0 !! cocktails_dir root <> Some (Dir es)).
      { intros es H. apply Hsrc. by rewrite H. }
      rewrite (resize_images_raise_fs root st st0 Hmk Hnd).
      apply (resize_images_raise_fs root (mkState (fs st0) o) (mkState (fs st0) o));
        [|exact Hnd].
      by apply mkdir_exist_ok_on_dir.
  - pose proof (mkdir_exist_ok_raise_again _ _ _ _ o Hmk) as Hmk2.
    apply resize_images_mkdir_raise in Hmk as [Hr1 ->].
    apply resize_images_mkdir_raise in Hmk2 as [Hr2 _].
    rewrite Hr1. simpl. by rewrite Hr2.
Qed.



Lemma list_ascii_of_string_app (s t : string) :
  list_ascii_of_string (s ++ t)
    = (list_ascii_of_string s ++ list_ascii_of_string t)%list.
Proof.
  induction s as [|a s IH]; [done|].
  rewrite append_String. simpl. by rewrite IH.
Qed.

Lemma append_cancel_r (s s' t : string) : s ++ t = s' ++ t -> s = s'.
Proof.
  intros H. apply (f_equal list_ascii_of_string) in H.
  rewrite !list_ascii_of_string_app in H. apply app_inv_tail in H.
  apply (f_equal string_of_list_ascii) in H.
  by rewrite !string_of_list_ascii_of_string in H.
Qed.

Lemma output_path_for_eq (od p1 p2 : path) :
  output_path_for od p1 = output_path_for od p2 <-> stem p1 = stem p2.
Proof.
  unfold output_path_for, joinpath. split.
  - intros H. apply app_inv_head in H. injection H as H.
    by apply append_cancel_r in H.
  - by intros ->.
Qed.




End Reruns.



(** The hypothesis on the progress line above is needed: the line is
    printed after the save, inside the [try]; when standard output cannot
    encode the file name, the attempt fails with the exception of that
    [print] and the output file is there all the same. *)
Lemma failed_progress_print_leaves_the_output :
  let W := DemoThumb.thumb_world in
  let od := ["proj"; "assets"; "cocktails-resized"] in
  let p := ["proj"; "assets"; "cocktails"; Demo.odd_name] in
  let st := (mkdir_exist_ok od (Demo.start [(Demo.odd_name, Demo.rgb_1x1)])).1 in
  (process_image od 1 1 p st).2
    = Raise (Exception (PyErr "UnicodeEncodeError"
        "'utf-8' codec can't encode character '\udcff': surrogates not allowed")) /\
  fs st !! output_path_for od p = None /\
  fs (process_image od 1 1 p st).1 !! output_path_for od p
    = Some (File [Byte.xff; Byte.xd8; Byte.x55; Byte.x0a; Byte.x14; Byte.x1e]) /\
  loop_body od 1 1 p st = ((process_image od 1 1 p st).1,
    Raise (Exception (PyErr "UnicodeEncodeError"
        "'utf-8' codec can't encode character '\udcff': surrogates not allowed"))).
Proof.
  intros W od p st. repeat split; vm_compute; reflexivity.
Qed.
(* ===================================================================== *)
(** * Part III: further properties of the script *)
(* ===================================================================== *)

(** ** Compositing, pixel by pixel *)

Section Pixels.
Context `{W : World}.

Lemma DIV255_scaled (v : Z) :
  (0 <= v < 256)%Z -> (PIL.DIV255 (v * 255) mod 256 = v)%Z.
Proof.
  intros Hv.
  assert (Hall : forallb (fun n => (PIL.DIV255 (Z.of_nat n * 255) mod 256
                                     =? Z.of_nat n)%Z) (seq 0 256) = true)
    by (vm_compute; reflexivity).
  rewrite forallb_forall in Hall.
  specialize (Hall (Z.to_nat v)).
  rewrite Z2Nat.id in Hall by lia.
  apply Z.eqb_eq, Hall, in_seq. lia.
Qed.

Lemma BLEND_opaque (o v : Z) : (0 <= v < 256)%Z -> PIL.BLEND 255 o v = v.
Proof.
  intros Hv. unfold PIL.BLEND.
  replace (o * (255 - 255) + v * 255)%Z with (v * 255)%Z by lia.
  by apply DIV255_scaled.
Qed.

(** Fully opaque pixels of an ["RGBA"] input keep their colour: the white
    canvas does not show through. *)
Theorem normalize_mode_RGBA_opaque_kept (img : Image) (st : state) :
  mode img = "RGBA" ->
  length (data img) = Z.to_nat ((size img).1 * (size img).2) ->
  exists out,
    normalize_mode img st = (st, Ok out) /\
    forall (i : nat) (r g b : Z),
      data img !! i = Some [r; g; b; 255]%Z ->
      (0 <= r < 256)%Z -> (0 <= g < 256)%Z -> (0 <= b < 256)%Z ->
      data out !! i = Some [r; g; b].
Proof.
  intros Hm Hlen. eexists. split; [by apply normalize_mode_RGBA|].
  simpl. intros i r g b Hi Hr Hg Hb.
  rewrite lookup_zip_with. rewrite lookup_zip_with.
  rewrite lookup_replicate_2 by (apply lookup_lt_Some in Hi; lia).
  rewrite list_lookup_fmap, Hi. simpl.
  unfold PIL.paste_pixel. simpl.
  by rewrite !BLEND_opaque.
Qed.

(** Mode normalisation as a whole: it touches neither the file system nor
    the output; when it returns, the image is ["RGB"] and has the size of
    the input; an ["RGB"] input is returned as it is; and it can only raise
    (an [Exception]) for a mode that has to go through [convert]. *)
Theorem normalize_mode_yields_RGB_of_the_same_size (img : Image) (st : state) :
  exists r,
    normalize_mode img st = (st, r) /\
    match r with
    | Ok out => mode out = "RGB" /\ size out = size img
    | Raise e => is_Exception e = true /\ mode img ∉ ["RGBA"; "LA"; "RGB"]
    end /\
    (mode img = "RGB" -> r = Ok img).
Proof.
  destruct (decide (mode img ∈ ["RGBA"; "LA"])) as [Hm|Hm].
  - assert (mode img = "RGBA" \/ mode img = "LA") as [E|E].
    { apply elem_of_cons in Hm as [Hm|Hm]; [by left|].
      apply list_elem_of_singleton in Hm. by right. }
    + eexists. split; [by apply normalize_mode_RGBA|]. split; [done|].
      intros E'. rewrite E in E'. discriminate.
    + eexists. split; [by apply normalize_mode_LA|]. split; [done|].
      intros E'. rewrite E in E'. discriminate.
  - unfold normalize_mode. rewrite bool_decide_false by done.
    destruct (String.eqb (mode img) "RGB") eqn:E; simpl.
    + apply String.eqb_eq in E. exists (Ok img). by repeat split.
    + apply String.eqb_neq in E.
      destruct (Image_convert_returns img "RGB") as (r & Hr & Hrun).
      exists r. split; [apply Hrun|]. split; [|done].
      destruct r as [out|e]; [exact Hr|]. split; [exact Hr|].
      intros Hin. apply Hm.
      apply elem_of_cons in Hin as [Hin|Hin]; [rewrite Hin; by left|].
      apply elem_of_cons in Hin as [Hin|Hin]; [rewrite Hin; right; by left|].
      apply list_elem_of_singleton in Hin. done.
Qed.

End Pixels.

Lemma normalize_mode_RGBA_opaque_kept_witness :
  exists out,
    normalize_mode (W := Demo.demo_world)
      (mkImage "RGBA" (2, 1)%Z [[10; 20; 30; 255]%Z; [0; 0; 0; 0]%Z])
      (Demo.start []) = (Demo.start [], Ok out) /\
    data out !! 0%nat = Some [10; 20; 30]%Z.
Proof.
  destruct (normalize_mode_RGBA_opaque_kept (W := Demo.demo_world)
              (mkImage "RGBA" (2, 1)%Z [[10; 20; 30; 255]%Z; [0; 0; 0; 0]%Z])
              (Demo.start []))
    as (out & Hrun & Hpx); [reflexivity | reflexivity |].
  exists out. split; [exact Hrun|].
  apply (Hpx 0%nat 10%Z 20%Z 30%Z); [reflexivity | lia | lia | lia].
Defined.

Lemma normalize_mode_LA_ignores_alpha_witness :
  exists out,
    normalize_mode (W := Demo.demo_world)
      (mkImage "LA" (1, 1)%Z [[200; 0]%Z]) (Demo.start [])
      = (Demo.start [], Ok out) /\
    data out !! 0%nat = Some [200; 200; 200]%Z.
Proof.
  destruct (normalize_mode_LA_ignores_alpha (W := Demo.demo_world)
              (mkImage "LA" (1, 1)%Z [[200; 0]%Z]) (Demo.start []))
    as (out & Hrun & Hpx); [reflexivity | reflexivity |].
  exists out. split; [exact Hrun|]. apply (Hpx 0%nat 200%Z 0%Z). reflexivity.
Defined.

(** ** Output names *)

Section Names.
Context `{W : World}.

Lemma length_append_string (s t : string) :
  String.length (s ++ t) = (String.length s + String.length t)%nat.
Proof.
  induction s as [|a s IH]; [done|]. rewrite append_String. simpl. by rewrite IH.
Qed.

Lemma rfind_append (c : ascii) (s t : string) :
  (0 <= PyStr.rfind c t)%Z ->
  PyStr.rfind c (s ++ t) = (PyStr.len s + PyStr.rfind c t)%Z.
Proof.
  intros Ht. unfold PyStr.len.
  induction s as [|a s IH]; [reflexivity|].
  rewrite append_String. simpl PyStr.rfind. rewrite IH.
  rewrite (proj2 (Z.leb_le _ _)) by lia. simpl String.length. lia.
Qed.

Lemma take_append_string (s t : string) :
  PyStr.take (String.length s) (s ++ t) = s.
Proof.
  induction s as [|a s IH]; [by destruct t|].
  rewrite append_String. simpl. by rewrite IH.
Qed.

Lemma drop_append_string (s t : string) :
  PyStr.drop (String.length s) (s ++ t) = t.
Proof.
  induction s as [|a s IH]; [done|]. rewrite append_String. simpl. exact IH.
Qed.

Lemma jpg_name_split (s : string) :
  s <> "" ->
  suffix_of (s ++ ".jpg") = ".jpg" /\ stem_of (s ++ ".jpg") = s.
Proof.
  intros Hs.
  assert (Hlen : (0 < String.length s)%nat) by (destruct s; [done | simpl; lia]).
  unfold suffix_of, stem_of, PyStr.slice_from, PyStr.slice_to, PyStr.len.
  rewrite rfind_append by (vm_compute; discriminate).
  rewrite length_append_string. change (PyStr.rfind "." ".jpg") with 0%Z.
  unfold PyStr.len. simpl String.length.
  rewrite (proj2 (Z.ltb_lt _ _)) by lia.
  rewrite (proj2 (Z.ltb_lt _ _)) by lia. simpl andb.
  rewrite Z.add_0_r, Nat2Z.id.
  split; [apply drop_append_string | apply take_append_string].
Qed.

Lemma take_nonempty (n : nat) (s : string) :
  (0 < n)%nat -> (0 < String.length s)%nat -> PyStr.take n s <> "".
Proof. destruct n, s; simpl; try lia; discriminate. Qed.

Lemma suffix_nonempty_stem_nonempty (nm : string) :
  suffix_of nm <> "" -> stem_of nm <> "".
Proof.
  unfold suffix_of, stem_of, PyStr.slice_to, PyStr.len.
  destruct (_ && _) eqn:E; [|done]. intros _.
  apply andb_true_iff in E as [E1 E2].
  apply Z.ltb_lt in E1, E2.
  apply take_nonempty; lia.
Qed.

(** The file written for an enumerated input has a non-empty stem, the
    stem of the input; its suffix is [.jpg]; so it would itself pass the
    filter of the enumeration, and processing it again would write the
    same name. *)
Theorem output_name_of_an_enumerated_file (d od : path) (nm : string) :
  is_image_file (joinpath d nm) = true ->
  stem_of nm <> "" /\
  name (output_path_for od (joinpath d nm)) = stem_of nm ++ ".jpg" /\
  suffix (output_path_for od (joinpath d nm)) = ".jpg" /\
  stem (output_path_for od (joinpath d nm)) = stem_of nm /\
  is_image_file (output_path_for od (joinpath d nm)) = true /\
  output_path_for od (output_path_for od (joinpath d nm))
    = output_path_for od (joinpath d nm).
Proof.
  unfold is_image_file at 1, suffix. rewrite name_joinpath.
  intros Hacc. apply bool_decide_eq_true in Hacc.
  assert (Hstem : stem_of nm <> "").
  { apply suffix_nonempty_stem_nonempty. intros E. rewrite E in Hacc.
    vm_compute in Hacc. repeat (apply elem_of_cons in Hacc as [Hacc|Hacc];
      [discriminate Hacc|]). by apply elem_of_nil in Hacc. }
  destruct (jpg_name_split _ Hstem) as [Hsuf Hst].
  unfold output_path_for, stem, suffix, is_image_file, suffix.
  rewrite !name_joinpath, Hsuf, Hst.
  repeat split; done.
Qed.

End Names.

Lemma output_name_of_an_enumerated_file_witness :
  let p := ["proj"; "assets"; "cocktails"; "Old.Fashioned.WEBP"] in
  let od := ["proj"; "assets"; "cocktails-resized"] in
  name (output_path_for od p) = "Old.Fashioned.jpg" /\
  output_path_for od (output_path_for od p) = output_path_for od p.
Proof.
  intros p od.
  destruct (output_name_of_an_enumerated_file
              ["proj"; "assets"; "cocktails"] od "Old.Fashioned.WEBP")
    as (_ & Hname & _ & _ & _ & Hagain); [vm_compute; reflexivity|].
  split; [exact Hname | exact Hagain].
Defined.

(** ** More on the batch: numbering, early failures, interruption *)

(** ** More on the batch: numbering, set-up failures, odd entries, Ctrl-C *)

Section BatchMore.
Context `{W : World}.

Lemma loop_trace_line (od : path) (total i : nat) (files : list path)
    (st st' : state) (lines : list string) :
  loop_trace od total i files st lines st' ->
  forall (k : nat) (f : path),
    files !! k = Some f ->
    lines !! k = Some (resized_line (i + k) total f) \/
    exists e, lines !! k = Some (error_line f e).
Proof.
  induction 1 as [i st | i f files st st1 lines st' Hrun Htr IH
                       | i f files st st1 e lines st' Hrun Htr IH];
    intros k g Hk.
  - by rewrite lookup_nil in Hk.
  - destruct k as [|k]; simpl in *.
    + injection Hk as <-. left. by rewrite Nat.add_0_r.
    + destruct (IH k g Hk) as [H|H]; [left | by right].
      by rewrite Nat.add_succ_r.
  - destruct k as [|k]; simpl in *.
    + injection Hk as <-. right. eauto.
    + destruct (IH k g Hk) as [H|H]; [left | by right].
      by rewrite Nat.add_succ_r.
Qed.

(** What [main] prints comes after what [resize_images] printed. *)
Lemma main_extends (root : path) (st : state) :
  exists tail,
    stdout (main root st).1 = (stdout (resize_images root st).1 ++ tail)%list.
Proof.
  rewrite main_run.
  destruct (resize_images root st) as [st' [[]|[|e]]]; cbn [fst stdout]; eauto.
  exists []. by rewrite app_nil_r.
Qed.

(** In a run without Ctrl-C in which standard output takes the count
    line and the error line of every failed attempt, the line for the
    enumerated file number [k] (counting from 0) comes right after the
    count line and the lines of the files before it; when the file was
    resized the line carries the 1-based position [k + 1] and the number
    of enumerated files, otherwise it is the error line of that file. *)
Theorem progress_lines_are_numbered_from_one
    (root : path) (st st0 : state) (es : list string) (k : nat) (f : path) :
  mkdir_exist_ok (output_dir root) st = (st0, Ok tt) ->
  fs st !! cocktails_dir root = Some (Dir es) ->
  let files := image_files_of (cocktails_dir root) es in
  (forall g, g ∈ files -> sigint (name g) = None) ->
  stdout_rejects (found_line (length files)) = None ->
  (forall j g e, files !! j = Some g ->
     (attempt (output_dir root) (S j) (length files) g (fs st0)).2
       = Raise (Exception e) ->
     stdout_rejects (error_line g e) = None) ->
  files !! k = Some f ->
  stdout (main root st).1 !! (length (stdout st) + 1 + k)%nat
    = Some ("Resized " ++ pretty (k + 1)%nat ++ "/" ++ pretty (length files)
              ++ ": " ++ name f) \/
  exists e,
    stdout (main root st).1 !! (length (stdout st) + 1 + k)%nat
      = Some ("Error processing " ++ name f ++ ": " ++ msg e).
Proof.
  intros Hmk Hsrc files Hsig Hfound Herr Hk.
  destruct (resize_images_completes root st st0 es Hmk Hsrc Hsig Hfound Herr)
    as (lines & st1 & Htr & Hlen & Hout & _ & Hrun).
  fold files in Htr, Hlen, Hout, Hrun.
  assert (Hlook : forall line, lines !! k = Some line ->
            stdout (main root st).1 !! (length (stdout st) + 1 + k)%nat = Some line).
  { intros line Hline.
    destruct (main_extends root st) as [tail ->]. rewrite Hrun.
    destruct (print_all_extends (banner root) st1) as [tail' ->].
    rewrite Hout. apply lookup_app_l_Some, lookup_app_l_Some.
    rewrite lookup_app_r by lia.
    replace (length (stdout st) + 1 + k - length (stdout st))%nat with (S k) by lia.
    exact Hline. }
  destruct (loop_trace_line _ _ _ _ _ _ _ Htr k f Hk) as [H|[e H]].
  - left. rewrite (Hlook _ H). unfold resized_line.
    by replace (1 + k)%nat with (k + 1)%nat by lia.
  - right. exists e. by rewrite (Hlook _ H).
Qed.

(** [mkdir] comes before the enumeration: when the source directory is
    missing, the destination directory is created all the same (inside an
    existing [assets] directory), and only then does the run end with
    status 1, and with the error message when standard output takes it. *)
Theorem missing_source_still_creates_the_destination
    (root : path) (st : state) (es : list string) :
  fs st !! cocktails_dir root = None ->
  fs st !! output_dir root = None ->
  fs st !! parent (output_dir root) = Some (Dir es) ->
  let line := "❌ Error: [Errno 2] No such file or directory: '"
                ++ path_str (cocktails_dir root) ++ "'" in
  main root st =
    (mkState
       (<[output_dir root := Dir []]>
          (<[parent (output_dir root) := Dir (add_entry "cocktails-resized" es)]>
             (fs st)))
       (stdout st ++ match stdout_rejects line with
                     | Some _ => []
                     | None => [line]
                     end),
     1%Z).
Proof.
  intros Hsrc Hod Hpar line.
  assert (Hmk : mkdir_exist_ok (output_dir root) st =
    (set_fs st (<[output_dir root := Dir []]>
       (<[parent (output_dir root) := Dir (add_entry "cocktails-resized" es)]>
          (fs st))), Ok tt)).
  { unfold mkdir_exist_ok. rewrite Hod, Hpar.
    unfold output_dir at 3. by rewrite name_joinpath. }
  pose proof (mkdir_keeps_source _ _ _ _ Hmk) as Hsrc0. rewrite Hsrc in Hsrc0.
  rewrite main_run. unfold resize_images.
  rewrite bind_run, Hmk, bind_run, iterdir_run, Hsrc0. reflexivity.
Qed.

(** [exist_ok=True] does not help when the destination path is a regular
    file: the run ends at once with [FileExistsError], status 1, and the
    file system as it was; the error message is printed when standard
    output takes it. *)
Theorem destination_that_is_a_file_ends_the_run
    (root : path) (st : state) (b : bytes) :
  fs st !! output_dir root = Some (File b) ->
  let line := "❌ Error: [Errno 17] File exists: '"
                ++ path_str (output_dir root) ++ "'" in
  main root st =
    (mkState (fs st)
       (stdout st ++ match stdout_rejects line with
                     | Some _ => []
                     | None => [line]
                     end),
     1%Z).
Proof.
  intros Hod line. rewrite main_run. unfold resize_images, mkdir_exist_ok.
  rewrite bind_run, Hod. reflexivity.
Qed.

(** The enumeration does not ask whether an entry is a file: a directory
    whose name has an image suffix is attempted like any other entry.
    The attempt fails on [Image.open] and leaves the file system alone;
    when no Ctrl-C is pending the iteration is the handler's [print]: the
    error line is added and the loop goes on, or, when standard output
    refuses the line, the exception of that [print] leaves the loop. *)
Theorem directory_entry_is_reported_as_an_error
    (od : path) (total i : nat) (p : path) (st : state) (es : list string) :
  fs st !! p = Some (Dir es) ->
  sigint (name p) = None ->
  let line := "Error processing " ++ name p
                ++ ": [Errno 21] Is a directory: '" ++ path_str p ++ "'" in
  loop_body od total i p st =
    match stdout_rejects line with
    | None => (mkState (fs st) (stdout st ++ [line]), Ok tt)
    | Some e => (st, Raise (Exception e))
    end.
Proof.
  intros Hp Hsig line. rewrite loop_body_run.
  unfold plan_step, attempt. rewrite Hsig.
  unfold render, Image_open. rewrite bind_run. cbn [fs]. rewrite Hp.
  cbn [raise_err raise snd]. unfold run_step, error_line. cbn [msg].
  change ("Error processing " ++ name p ++ ": "
            ++ "[Errno 21] Is a directory: '" ++ path_str p ++ "'") with line.
  destruct (stdout_rejects line); cbn [fst snd apply_effect];
    [by destruct st | reflexivity].
Qed.




End BatchMore.

(** ** More on the file system: stale entries, nothing removed, own outputs *)

Section FsMore.
Context `{W : World}.

Lemma loop_cells_keep (od : path) (total : nat) (t0 : gmap (list string) node)
    (files : list path) (q : path) (x : option node) :
  (forall f, f ∈ files -> q <> output_path_for od f) -> q <> od ->
  forall i, cells_apply (loop_cells od total i t0 files q) x = x.
Proof.
  intros H1 H2. induction files as [|f files IH]; intros i; [done|].
  rewrite loop_cells_cons, cells_apply_cons.
  rewrite effect_cell_off by (try done; apply H1; left).
  destruct ((plan_step od i total f t0).2); [|done].
  apply IH. intros g Hg. apply H1. by right.
Qed.

Lemma destination_entry_off (root : path) (nm : string) :
  joinpath (output_dir root) nm <> output_dir root /\
  joinpath (output_dir root) nm <> parent (output_dir root).
Proof.
  split; [apply parent_neq|]. rewrite parent_output_dir.
  unfold output_dir, joinpath. intros H.
  apply (f_equal length) in H. rewrite !length_app in H. simpl in H. lia.
Qed.

(** The destination directory is not cleared: an entry whose name is not
    [<stem>.jpg] for any enumerated input is, after the run, exactly what
    it was before. *)
Theorem stale_destination_entries_are_kept
    (root : path) (st : state) (nm : string) :
  (forall es f,
     fs st !! cocktails_dir root = Some (Dir es) ->
     f ∈ image_files_of (cocktails_dir root) es ->
     stem f ++ ".jpg" <> nm) ->
  fs (main root st).1 !! joinpath (output_dir root) nm
    = fs st !! joinpath (output_dir root) nm.
Proof.
  intros Hnm. rewrite main_fs.
  destruct (destination_entry_off root nm) as [Hq1 Hq2].
  destruct (mkdir_exist_ok (output_dir root) st) as [st0 [[]|e]] eqn:Hmk.
  - pose proof (mkdir_exist_ok_frame _ _ _ _ Hmk) as [_ Hframe].
    pose proof (mkdir_keeps_source _ _ _ _ Hmk) as Hsrc0.
    rewrite <- (Hframe _ Hq1 Hq2).
    destruct (decide (is_dir (fs st0 !! cocktails_dir root) = true)) as [Hsrc|Hsrc].
    + apply is_dir_true in Hsrc as [es Hsrc].
      destruct (resize_images_cells root st st0 (fs st0) es Hmk Hsrc
                  (same_view_refl _ _ _)) as [Hcells _].
      rewrite Hcells. unfold run_cells.
      destruct (stdout_rejects _); [done|].
      apply loop_cells_keep; [|exact Hq1].
      intros f Hf E. unfold output_path_for, joinpath in E.
      apply app_inv_head in E. injection E as E.
      apply (Hnm es f); [by rewrite <- Hsrc0 | exact Hf | by symmetry].
    + rewrite (resize_images_raise_fs root st st0 Hmk); [done|].
      intros es H. apply Hsrc. by rewrite H.
  - apply resize_images_mkdir_raise in Hmk as [-> ->]. done.
Qed.

Lemma cell_apply_kept (c : cellfn) (x : option node) :
  kept x (cell_apply c x).
Proof.
  destruct c, x as [[b|es]|]; simpl; eauto.
  eexists. split; [done|]. intros nm' H. by apply add_entry_keeps.
Qed.

Lemma kept_refl (x : option node) : kept x x.
Proof. destruct x as [[b|es]|]; simpl; eauto. Qed.

Lemma kept_trans (x y z : option node) : kept x y -> kept y z -> kept x z.
Proof.
  destruct x as [[b|es]|]; simpl; [| |done].
  - intros [b1 ->]. simpl. done.
  - intros (es1 & -> & H1). simpl. intros (es2 & -> & H2).
    eexists. split; [done|]. auto.
Qed.

Lemma cells_apply_kept (cs : list cellfn) (x : option node) :
  kept x (cells_apply cs x).
Proof.
  revert x. induction cs as [|c cs IH]; intros x; [apply kept_refl|].
  rewrite cells_apply_cons. eapply kept_trans; [apply cell_apply_kept|apply IH].
Qed.

Lemma mkdir_exist_ok_kept (d : path) (st st0 : state) (r : result unit)
    (q : path) :
  mkdir_exist_ok d st = (st0, r) -> kept (fs st !! q) (fs st0 !! q).
Proof.
  intros Hmk.
  destruct (mkdir_exist_ok_cases d st)
    as [(es & _ & E) | [(es & Hnone & Hpar & E) | (e & E & _)]];
    rewrite E in Hmk; injection Hmk as <- <-; try apply kept_refl.
  simpl. destruct (decide (q = d)) as [->|Hq].
  - by rewrite Hnone.
  - rewrite lookup_insert_ne by done.
    destruct (decide (q = parent d)) as [->|Hq'].
    + rewrite lookup_insert_eq, Hpar. simpl. eexists. split; [done|].
      intros nm H. by apply add_entry_keeps.
    + rewrite lookup_insert_ne by done. apply kept_refl.
Qed.

(** A run never removes anything and never changes what a path is: a
    path that held a file holds a file afterwards, a path that held a
    directory holds a directory that still lists every entry it listed. *)
Theorem nothing_is_removed_by_a_run (root : path) (st : state) (q : path) :
  (forall b, fs st !! q = Some (File b) ->
             exists b', fs (main root st).1 !! q = Some (File b')) /\
  (forall es, fs st !! q = Some (Dir es) ->
              exists es', fs (main root st).1 !! q = Some (Dir es') /\
                          forall nm, nm ∈ es -> nm ∈ es').
Proof.
  assert (H : kept (fs st !! q) (fs (main root st).1 !! q)).
  { rewrite main_fs.
    destruct (mkdir_exist_ok (output_dir root) st) as [st0 [[]|e]] eqn:Hmk.
    - eapply kept_trans; [by eapply mkdir_exist_ok_kept|].
      destruct (decide (is_dir (fs st0 !! cocktails_dir root) = true)) as [Hsrc|Hsrc].
      + apply is_dir_true in Hsrc as [es Hsrc].
        destruct (resize_images_cells root st st0 (fs st0) es Hmk Hsrc
                    (same_view_refl _ _ _)) as [Hcells _].
        rewrite Hcells. apply cells_apply_kept.
      + rewrite (resize_images_raise_fs root st st0 Hmk); [apply kept_refl|].
        intros es H. apply Hsrc. by rewrite H.
    - apply resize_images_mkdir_raise in Hmk as [-> ->]. apply kept_refl. }
  split.
  - intros b Hb. by rewrite Hb in H.
  - intros es Hes. by rewrite Hes in H.
Qed.

Lemma loop_cells_app (od : path) (total : nat) (t0 : gmap (list string) node)
    (l1 l2 : list path) (q : path) :
  forall i,
    loop_result od total i t0 l1 = Ok tt ->
    loop_cells od total i t0 (l1 ++ l2) q
      = (loop_cells od total i t0 l1 q
           ++ loop_cells od total (i + length l1) t0 l2 q)%list.
Proof.
  induction l1 as [|g l1 IH]; intros i Hres.
  - simpl. by rewrite Nat.add_0_r.
  - change ((g :: l1) ++ l2)%list with (g :: (l1 ++ l2))%list.
    rewrite loop_result_cons in Hres. rewrite !loop_cells_cons.
    destruct ((plan_step od i total g t0).2); [|done].
    rewrite (IH (S i) Hres). simpl length.
    by rewrite Nat.add_succ_r.
Qed.

(** An attempt that is not interrupted, renders and can write its file
    has saved the whole encoding, whatever becomes of its progress
    line. *)
Lemma attempt_saved (od : path) (i total : nat) (p : path)
    (t : gmap (list string) node) (img : Image) :
  sigint (name p) = None ->
  (render p (mkState t [])).2 = Ok img ->
  is_dir (t !! output_path_for od p) = false ->
  is_dir (t !! od) = true ->
  write_fault (output_path_for od p) (jpeg_encode 85 true img) = WriteOk ->
  mode img = "RGB" ->
  (plan_step od i total p t).1 = Saved (jpeg_encode 85 true img).
Proof.
  intros Hsig Hrender Hout Hod Hw Hmode.
  rewrite plan_step_effect. unfold attempt.
  rewrite Hsig, Hrender. cbn [in_save].
  rewrite save_plan_Ok_intro; try done.
  - by destruct (stdout_rejects _).
  - unfold output_path_for. by rewrite parent_joinpath.
  - rewrite Hmode. vm_compute. right. right. left.
Qed.

(** The input [f] of an enumeration [pre ++ f :: post]: when the loop
    arrives at [f], [f] is not interrupted, renders and can be written,
    and no later input has its stem, the run leaves the encoding of [f]
    in [destination/<stem>.jpg]. *)
Lemma output_of_the_last_input_with_a_stem
    (root : path) (st st0 : state) (es : list string)
    (pre post : list path) (f : path) (img : Image) :
  mkdir_exist_ok (output_dir root) st = (st0, Ok tt) ->
  fs st !! cocktails_dir root = Some (Dir es) ->
  image_files_of (cocktails_dir root) es = (pre ++ f :: post)%list ->
  let n := length (pre ++ f :: post) in
  let out := output_path_for (output_dir root) f in
  stdout_rejects (found_line n) = None ->
  (forall g, g ∈ pre -> sigint (name g) = None) ->
  (forall k g e, pre !! k = Some g ->
     (attempt (output_dir root) (S k) n g (fs st0)).2 = Raise (Exception e) ->
     stdout_rejects (error_line g e) = None) ->
  sigint (name f) = None ->
  (forall g, g ∈ post -> stem g <> stem f) ->
  (render f st).2 = Ok img ->
  write_fault out (jpeg_encode 85 true img) = WriteOk ->
  is_dir (fs st !! out) = false ->
  fs (main root st).1 !! out = Some (File (jpeg_encode 85 true img)).
Proof.
  intros Hmk Hsrc Hfiles n out Hfound Hsig Herr Hf0 Hpost Hrender Hw Hout.
  pose proof (mkdir_keeps_source _ _ _ _ Hmk) as Hsrc0. rewrite Hsrc in Hsrc0.
  pose proof (mkdir_exist_ok_frame _ _ _ _ Hmk) as [_ Hframe].
  pose proof (mkdir_exist_ok_is_dir _ _ _ Hmk) as Hod.
  destruct (destination_entry_off root (stem f ++ ".jpg")) as [Hq1 Hq2].
  fold (output_path_for (output_dir root) f) in Hq1, Hq2. fold out in Hq1, Hq2.
  assert (Hf : f ∈ image_files_of (cocktails_dir root) es).
  { rewrite Hfiles. apply elem_of_app. right. left. }
  destruct (image_files_off_destination root es f Hf) as [Hf1 Hf2].
  assert (Hf3 : f <> parent (output_dir root)).
  { apply elem_of_image_files_of in Hf as (nm & _ & -> & _).
    rewrite parent_output_dir. unfold cocktails_dir, joinpath. intros H.
    apply (f_equal length) in H. rewrite !length_app in H. simpl in H. lia. }
  assert (Heff : forall i,
            (plan_step (output_dir root) i n f (fs st0)).1
              = Saved (jpeg_encode 85 true img)).
  { intros i.
    destruct (render_run f st) as (r & Hrun & Hr & Hfr).
    rewrite Hrun in Hrender. simpl in Hrender. subst r.
    destruct Hr as [Hmode _].
    apply attempt_saved; try done.
    - rewrite (Hfr (mkState (fs st0) [])); [done|]. simpl. by apply Hframe.
    - fold out. by rewrite (Hframe _ Hq1 Hq2). }
  destruct (loop_goes_on (output_dir root) n (fs st0) pre 1 Hsig Herr)
    as [Hres _].
  destruct (resize_images_cells root st st0 (fs st0) es Hmk Hsrc0
              (same_view_refl _ _ _)) as [Hcells _].
  rewrite main_fs, Hcells. unfold run_cells. rewrite Hfiles. fold n.
  rewrite Hfound, (loop_cells_app _ _ _ _ _ _ 1 Hres), cells_apply_app.
  rewrite loop_cells_cons, cells_apply_cons, Heff.
  unfold effect_cell at 1. fold out. rewrite decide_True by done.
  assert (Hnd : is_dir (cells_apply
                    (loop_cells (output_dir root) n 1 (fs st0) pre out)
                    (fs st0 !! out)) = false)
    by (by rewrite cells_apply_is_dir, (Hframe _ Hq1 Hq2)).
  assert (Hput : cell_apply (CPut (jpeg_encode 85 true img))
                   (cells_apply
                      (loop_cells (output_dir root) n 1 (fs st0) pre out)
                      (fs st0 !! out))
                 = Some (File (jpeg_encode 85 true img)))
    by (by destruct (cells_apply _ _) as [[?|?]|]).
  rewrite Hput.
  destruct ((plan_step (output_dir root) (1 + length pre) n f (fs st0)).2);
    [|done].
  apply loop_cells_keep; [|exact Hq1].
  intros g Hg E. apply output_path_for_eq in E. by apply (Hpost g Hg).
Qed.

(** With pairwise different stems, in a run without Ctrl-C in which
    standard output takes the count line and the error line of every
    failed attempt, every input that can be rendered and written ends
    the run with its own encoding in its own file
    [destination/<stem>.jpg]: no later iteration touches it.  This does
    not depend on the progress line of that input being printable: the
    file is saved before the line is printed. *)
Theorem each_input_ends_in_its_own_file
    (root : path) (st st0 : state) (es : list string) (f : path) (img : Image) :
  mkdir_exist_ok (output_dir root) st = (st0, Ok tt) ->
  fs st !! cocktails_dir root = Some (Dir es) ->
  let files := image_files_of (cocktails_dir root) es in
  let out := output_path_for (output_dir root) f in
  (forall g, g ∈ files -> sigint (name g) = None) ->
  stdout_rejects (found_line (length files)) = None ->
  (forall k g e, files !! k = Some g ->
     (attempt (output_dir root) (S k) (length files) g (fs st0)).2
       = Raise (Exception e) ->
     stdout_rejects (error_line g e) = None) ->
  NoDup (map stem files) ->
  f ∈ files ->
  (render f st).2 = Ok img ->
  write_fault out (jpeg_encode 85 true img) = WriteOk ->
  is_dir (fs st !! out) = false ->
  fs (main root st).1 !! out = Some (File (jpeg_encode 85 true img)).
Proof.
  intros Hmk Hsrc files out Hsig Hfound Herr Hnd Hf Hrender Hw Hout.
  destruct (list_elem_of_split _ _ Hf) as (pre & post & Hsplit).
  subst files out. rewrite Hsplit in *.
  apply (output_of_the_last_input_with_a_stem root st st0 es pre post f img);
    try done.
  - intros g Hg. apply Hsig, elem_of_app. by left.
  - intros k g e Hk. apply Herr. by apply lookup_app_l_Some.
  - apply Hsig, elem_of_app. right. left.
  - intros g Hg E. rewrite map_app in Hnd. simpl in Hnd.
    apply NoDup_app in Hnd as (_ & _ & Hnd).
    apply NoDup_cons in Hnd as [Hnd _]. apply Hnd.
    rewrite <- E. apply list_elem_of_fmap. eauto.
Qed.

End FsMore.

(** ** Inputs that share a stem *)

Section SameStem.
Context `{W : World}.

(** When several enumerated inputs share a stem, the file
    [destination/<stem>.jpg] holds at the end of the run the encoding of
    the last of them in enumeration order, provided that the loop
    arrives at that one (no Ctrl-C before it, and standard output takes
    the count line and the error line of every failed attempt before it)
    and that it is not interrupted and can be rendered and written: the
    earlier ones are overwritten, and what follows does not touch the
    file. *)
Theorem last_input_with_a_stem_wins
    (root : path) (st st0 : state) (es : list string)
    (pre post : list path) (f : path) (img : Image) :
  mkdir_exist_ok (output_dir root) st = (st0, Ok tt) ->
  fs st !! cocktails_dir root = Some (Dir es) ->
  image_files_of (cocktails_dir root) es = (pre ++ f :: post)%list ->
  let n := length (pre ++ f :: post) in
  let out := output_path_for (output_dir root) f in
  (forall g, g ∈ (pre ++ [f])%list -> sigint (name g) = None) ->
  stdout_rejects (found_line n) = None ->
  (forall k g e, pre !! k = Some g ->
     (attempt (output_dir root) (S k) n g (fs st0)).2 = Raise (Exception e) ->
     stdout_rejects (error_line g e) = None) ->
  (forall g, g ∈ post -> stem g <> stem f) ->
  (render f st).2 = Ok img ->
  write_fault out (jpeg_encode 85 true img) = WriteOk ->
  is_dir (fs st !! out) = false ->
  fs (main root st).1 !! out = Some (File (jpeg_encode 85 true img)).
Proof.
  intros Hmk Hsrc Hfiles n out Hsig Hfound Herr Hpost Hrender Hw Hout.
  apply (output_of_the_last_input_with_a_stem root st st0 es pre post f img);
    try done.
  - intros g Hg. apply Hsig, elem_of_app. by left.
  - apply Hsig, elem_of_app. right. left.
Qed.

End SameStem.

Lemma last_input_with_a_stem_wins_witness :
  let W := DemoThumb.thumb_world in
  let st := Demo.start [("a.png", Demo.rgb_1x1); ("a.jpg", Demo.rgba_1x1_clear)] in
  fs (main ["proj"] st).1 !! ["proj"; "assets"; "cocktails-resized"; "a.jpg"]
    = Some (File [Byte.xff; Byte.xd8; Byte.x55; Byte.xff; Byte.xff; Byte.xff]).
Proof.
  intros W st.
  apply (last_input_with_a_stem_wins (W := W) ["proj"] st
           (mkdir_exist_ok (output_dir ["proj"]) st).1 ["a.png"; "a.jpg"]
           [["proj"; "assets"; "cocktails"; "a.png"]] []
           ["proj"; "assets"; "cocktails"; "a.jpg"]
           (mkImage "RGB" (400, 400)%Z [[255; 255; 255]%Z])).
  - vm_compute. reflexivity.
  - vm_compute. reflexivity.
  - vm_compute. reflexivity.
  - apply Forall_forall. vm_compute. repeat constructor.
  - vm_compute. reflexivity.
  - intros k g e Hk Ha.
    destruct k as [|k]; vm_compute in Hk; try discriminate;
      injection Hk as <-; vm_compute in Ha; discriminate.
  - intros g Hg. by apply elem_of_nil in Hg.
  - vm_compute. reflexivity.
  - vm_compute. reflexivity.
  - vm_compute. reflexivity.
Defined.

(** ** The further properties on concrete runs *)

Lemma progress_lines_are_numbered_from_one_witness :
  let W := Demo.demo_world in
  let st := Demo.start [("a.png", Demo.rgb_1x1); ("b.PNG", Demo.garbage);
                        ("c.jpg", Demo.rgb_1x1)] in
  stdout (main ["proj"] st).1 !! 3%nat = Some "Resized 3/3: c.jpg" \/
  exists e,
    stdout (main ["proj"] st).1 !! 3%nat
      = Some ("Error processing c.jpg: " ++ msg e).
Proof.
  intros W st.
  apply (progress_lines_are_numbered_from_one (W := W) ["proj"] st
           (mkdir_exist_ok (output_dir ["proj"]) st).1
           ["a.png"; "b.PNG"; "c.jpg"] 2
           ["proj"; "assets"; "cocktails"; "c.jpg"]).
  - vm_compute. reflexivity.
  - vm_compute. reflexivity.
  - apply Forall_forall. vm_compute. repeat constructor.
  - vm_compute. reflexivity.
  - intros k f e Hk Ha.
    destruct k as [|[|[|k]]]; vm_compute in Hk; try discriminate;
      injection Hk as <-; vm_compute in Ha; try discriminate;
      injection Ha as <-; vm_compute; reflexivity.
  - vm_compute. reflexivity.
Defined.

Lemma missing_source_still_creates_the_destination_witness :
  let W := Demo.demo_world in
  let st := mkState (<[ ["proj"] := Dir ["assets"] ]>
                       (<[ ["proj"; "assets"] := Dir [] ]> ∅)) [] in
  fs (main ["proj"] st).1 !! ["proj"; "assets"; "cocktails-resized"]
    = Some (Dir []) /\
  fs (main ["proj"] st).1 !! ["proj"; "assets"]
    = Some (Dir ["cocktails-resized"]) /\
  main ["proj"] st =
    (mkState (fs (main ["proj"] st).1)
       ["❌ Error: [Errno 2] No such file or directory: 'proj/assets/cocktails'"],
     1%Z).
Proof.
  intros W st.
  rewrite (missing_source_still_creates_the_destination (W := W) ["proj"] st []
             ltac:(vm_compute; reflexivity) ltac:(vm_compute; reflexivity)
             ltac:(vm_compute; reflexivity)).
  repeat split; vm_compute; reflexivity.
Defined.

Lemma destination_that_is_a_file_ends_the_run_witness :
  let W := Demo.demo_world in
  let st := mkState (<[ ["proj"; "assets"; "cocktails-resized"] := File [] ]>
                       (Demo.tree [("a.png", Demo.rgb_1x1)])) [] in
  main ["proj"] st =
    (mkState (fs st)
       ["❌ Error: [Errno 17] File exists: 'proj/assets/cocktails-resized'"],
     1%Z).
Proof.
  intros W st.
  apply (destination_that_is_a_file_ends_the_run (W := W) ["proj"] st []).
  vm_compute. reflexivity.
Defined.

Lemma directory_entry_is_reported_as_an_error_witness :
  let W := Demo.demo_world in
  let st := Demo.start [("album.png", Dir [])] in
  let p := ["proj"; "assets"; "cocktails"; "album.png"] in
  loop_body ["proj"; "assets"; "cocktails-resized"] 1 1 p st =
    (mkState (fs st)
       ["Error processing album.png: [Errno 21] Is a directory: 'proj/assets/cocktails/album.png'"],
     Ok tt).
Proof.
  intros W st p.
  apply (directory_entry_is_reported_as_an_error (W := W)
           ["proj"; "assets"; "cocktails-resized"] 1 1 p st []).
  - vm_compute. reflexivity.
  - vm_compute. reflexivity.
Defined.

(** The same entry under a name standard output cannot encode: the error
    line is not printed and the exception of the handler's [print] leaves
    the loop. *)
Lemma directory_with_an_unprintable_name_leaves_the_loop :
  let W := Demo.demo_world in
  let st := Demo.start [(Demo.odd_name, Dir [])] in
  let p := ["proj"; "assets"; "cocktails"; Demo.odd_name] in
  loop_body ["proj"; "assets"; "cocktails-resized"] 1 1 p st =
    (st, Raise (Exception (PyErr "UnicodeEncodeError"
       "'utf-8' codec can't encode character '\udcff': surrogates not allowed"))).
Proof. intros W st p. vm_compute. reflexivity. Qed.


Lemma stale_destination_entries_are_kept_witness :
  let W := Demo.demo_world in
  let od := ["proj"; "assets"; "cocktails-resized"] in
  let st := mkState (<[ od := Dir ["old.jpg"] ]>
                       (<[ (od ++ ["old.jpg"])%list := File [Byte.x01] ]>
                          (Demo.tree [("a.png", Demo.rgb_1x1)]))) [] in
  fs (main ["proj"] st).1 !! joinpath od "old.jpg" = Some (File [Byte.x01]) /\
  fs (main ["proj"] st).1 !! od = Some (Dir ["old.jpg"; "a.jpg"]).
Proof.
  intros W od st. split; [|vm_compute; reflexivity].
  etransitivity.
  - apply (stale_destination_entries_are_kept (W := W) ["proj"] st "old.jpg").
    intros es f Hes Hf. vm_compute in Hes. injection Hes as <-.
    vm_compute in Hf. apply list_elem_of_singleton in Hf. subst f.
    vm_compute. discriminate.
  - vm_compute. reflexivity.
Defined.

Lemma each_input_ends_in_its_own_file_witness :
  let W := DemoThumb.thumb_world in
  let st := Demo.start [("a.png", Demo.rgb_1x1); ("b.png", Demo.la_1x1_clear)] in
  fs (main ["proj"] st).1 !! ["proj"; "assets"; "cocktails-resized"; "a.jpg"]
    = Some (File [Byte.xff; Byte.xd8; Byte.x55; Byte.x0a; Byte.x14; Byte.x1e]).
Proof.
  intros W st.
  apply (each_input_ends_in_its_own_file (W := W) ["proj"] st
           (mkdir_exist_ok (output_dir ["proj"]) st).1 ["a.png"; "b.png"]
           ["proj"; "assets"; "cocktails"; "a.png"]
           (mkImage "RGB" (400, 400)%Z [[10; 20; 30]%Z])).
  - vm_compute. reflexivity.
  - vm_compute. reflexivity.
  - apply Forall_forall. vm_compute. repeat constructor.
  - vm_compute. reflexivity.
  - intros k g e Hk Ha.
    destruct k as [|[|k]]; vm_compute in Hk; try discriminate;
      injection Hk as <-; vm_compute in Ha; discriminate.
  - vm_compute. apply NoDup_cons_2; [|apply NoDup_singleton].
    intros H. apply list_elem_of_singleton in H. discriminate.
  - vm_compute. repeat constructor.
  - vm_compute. reflexivity.
  - vm_compute. reflexivity.
  - vm_compute. reflexivity.
Defined.
